(** * Audio visualizer: frequency-to-bar mapping and session control

    A shallow embedding of the three demo components of the repository:

    - [Bars3D]   the file-upload 3D visualizer (fixed stride sampling),
    - [BarsZ]    the file-upload 3D visualizer with a selectable Z formula,
    - [Mic2D]    the microphone 2D visualizer ([src/App.jsx]).

    JavaScript numbers are idealised as real numbers: [Math.floor] is
    [Zfloor], [Math.max] is [Rmax], [Math.sin] and [Math.cos] are [sin] and
    [cos].  Reading a typed array outside its bounds gives [undefined] in
    JavaScript (and [NaN] after the division by 255); the model returns
    [None] there.  The module [Binary64] re-runs the height, hue and
    position arithmetic on IEEE doubles for every byte an analyser can
    deliver; identities that hold only up to rounding are stated there. *)

From Stdlib Require Import Reals Lra Lia ZArith List String Ascii Bool Zfloor.
From Stdlib Require Import Strings.Byte Floats.
Import ListNotations.

Local Open Scope R_scope.

(** ** Typed arrays *)

(** A [Uint8Array]: every element is a byte by construction. *)
Definition Uint8Array := list Byte.byte.

Definition byteValue (b : Byte.byte) : R := IZR (Z.of_N (Byte.to_N b)).

(** [dataArray[k]] for an integral index [k]; [None] is [undefined]. *)
Definition element (dataArray : Uint8Array) (k : Z) : option R :=
  if (k <? 0)%Z then None
  else option_map byteValue (nth_error dataArray (Z.to_nat k)).

Definition arrayLength (dataArray : Uint8Array) : Z :=
  Z.of_nat (List.length dataArray).

(** A snapshot that starts 255, 128, 0 and is silent in its other 125
    bins. *)
Definition quietSnapshot : Uint8Array :=
  Byte.xff :: Byte.x80 :: Byte.x00 :: repeat Byte.x00 125.

(** The bar indices visited by [for (let i = 0; i < n; i++)]. *)
Definition indices (n : nat) : list Z := map Z.of_nat (seq 0 n).

(** What [setMatrixAt] stores for one bar: the position and the scale of
    the shared dummy object at the time of the call. *)
Record Instance := mkInstance {
  position : R * R * R;
  scale : R * R * R
}.

(** The x and z coordinates of [position]. *)
Definition abscissa (bar : Instance) : R := fst (fst (position bar)).

Definition depth (bar : Instance) : R := snd (position bar).

(** The y coordinate of [position], and the x and y factors of [scale].
    The instanced geometry is a unit box centred at the origin, so a bar
    spans [ordinate - tallness / 2, ordinate + tallness / 2] vertically
    and [abscissa - breadth / 2, abscissa + breadth / 2] along the row. *)
Definition ordinate (bar : Instance) : R := snd (fst (position bar)).

Definition breadth (bar : Instance) : R := fst (fst (scale bar)).

Definition tallness (bar : Instance) : R := snd (fst (scale bar)).

(** ** The analyser node

    Only the two attributes the components set are kept.
    [frequencyBinCount] is half the FFT size (Web Audio API). *)
Record Analyser := mkAnalyser {
  fftSize : Z;
  smoothingTimeConstant : R
}.

Definition frequencyBinCount (a : Analyser) : Z := (fftSize a / 2)%Z.

(** A snapshot is what [getByteFrequencyData] writes into
    [new Uint8Array(analyser.frequencyBinCount)]. *)
Definition snapshotOf (a : Analyser) (dataArray : Uint8Array) : Prop :=
  arrayLength dataArray = frequencyBinCount a.

(** ** Event handlers: state, exceptions and the browser

    A handler runs to completion on a world [W]; it either completes
    normally or throws.  The state reached so far survives a throw, as in
    JavaScript. *)
Inductive Completion (A : Type) : Type :=
| Normal (a : A)
| Throw (err : string).
Arguments Normal {A} a.
Arguments Throw {A} err.

Definition M (W A : Type) : Type := W -> Completion A * W.

Definition ret {W A : Type} (a : A) : M W A := fun w => (Normal a, w).

Definition bind {W A B : Type} (m : M W A) (k : A -> M W B) : M W B :=
  fun w =>
    match m w with
    | (Normal a, w') => k a w'
    | (Throw err, w') => (Throw err, w')
    end.

Definition throw {W A : Type} (err : string) : M W A :=
  fun w => (Throw err, w).

(** [try { body } catch (err) { handler }] *)
Definition tryCatch {W A : Type} (body : M W A) (handler : string -> M W A)
  : M W A :=
  fun w =>
    match body w with
    | (Normal a, w') => (Normal a, w')
    | (Throw err, w') => handler err w'
    end.

Definition gets {W A : Type} (f : W -> A) : M W A :=
  fun w => (Normal (f w), w).

Definition modify {W : Type} (f : W -> W) : M W unit :=
  fun w => (Normal tt, f w).

Definition when {W : Type} (b : bool) (m : M W unit) : M W unit :=
  if b then m else ret tt.

Definition exec {W A : Type} (m : M W A) (w : W) : W := snd (m w).

Definition completes {W A : Type} (m : M W A) (w : W) : Prop :=
  exists a, fst (m w) = Normal a.

Declare Scope handler_scope.
Delimit Scope handler_scope with handler.
Notation "x <- c1 ;; c2" := (bind c1 (fun x => c2))
  (at level 61, c1 at next level, right associativity) : handler_scope.
Notation "c1 ;; c2" := (bind c1 (fun _ => c2))
  (at level 61, right associativity) : handler_scope.

(** Calls into the browser that the handlers make, in program order. *)
Inductive Call : Type :=
| GetUserMedia
| NewAudioContext (c : nat)
| CreateMediaStreamSource (c : nat)
| CreateMediaElementSource (c : nat)
| CreateAnalyser (c : nat)
| Connect
| CloseContext (c : nat)
| RequestAnimationFrame (f : nat)
| CancelAnimationFrame (f : nat)
| Play
| Pause
| ConsoleError
| CreateObjectURL.

Definition Call_eq_dec (a b : Call) : {a = b} + {a <> b}.
Proof. decide equality; apply Nat.eq_dec. Defined.

(** The part of the browser the handlers act on.  Audio contexts are
    numbered in order of construction.  [close()] on a context that is
    already closed returns a promise rejected with [InvalidStateError]
    (Web Audio API); nothing handles it, so it is recorded in
    [rejections].  [requestAnimationFrame] hands out 1, 2, ... *)
Record Browser := mkBrowser {
  contexts : nat;
  closed : list nat;
  rejections : list nat;
  lastFrame : nat;
  pending : list nat;
  calls : list Call
}.

Definition freshBrowser : Browser :=
  {| contexts := 0; closed := []; rejections := []; lastFrame := 0;
     pending := []; calls := [] |}.

Definition logCall (c : Call) (b : Browser) : Browser :=
  {| contexts := contexts b; closed := closed b;
     rejections := rejections b; lastFrame := lastFrame b;
     pending := pending b; calls := calls b ++ [c] |}.

(** [new AudioContext()] *)
Definition browserNewContext (b : Browser) : nat * Browser :=
  let c := contexts b in
  (c, {| contexts := S c; closed := closed b;
         rejections := rejections b; lastFrame := lastFrame b;
         pending := pending b; calls := calls b ++ [NewAudioContext c] |}).

Definition isClosed (c : nat) (b : Browser) : bool :=
  existsb (Nat.eqb c) (closed b).

(** [context.close()] *)
Definition browserClose (c : nat) (b : Browser) : Browser :=
  {| contexts := contexts b;
     closed := if isClosed c b then closed b else closed b ++ [c];
     rejections :=
       if isClosed c b then rejections b ++ [c] else rejections b;
     lastFrame := lastFrame b; pending := pending b;
     calls := calls b ++ [CloseContext c] |}.

(** [requestAnimationFrame(callback)] *)
Definition browserRequestFrame (b : Browser) : nat * Browser :=
  let f := S (lastFrame b) in
  (f, {| contexts := contexts b; closed := closed b;
         rejections := rejections b; lastFrame := f;
         pending := pending b ++ [f];
         calls := calls b ++ [RequestAnimationFrame f] |}).

(** [cancelAnimationFrame(f)] *)
Definition browserCancelFrame (f : nat) (b : Browser) : Browser :=
  {| contexts := contexts b; closed := closed b;
     rejections := rejections b; lastFrame := lastFrame b;
     pending := filter (fun g => negb (Nat.eqb g f)) (pending b);
     calls := calls b ++ [CancelAnimationFrame f] |}.

(** How often [close()] was called on context [c]. *)
Definition closeCalls (c : nat) (b : Browser) : nat :=
  count_occ Call_eq_dec (calls b) (CloseContext c).

(** What the awaited promise of [getUserMedia] or [play] does. *)
Inductive Outcome : Type := Resolved | Rejected.

(** [createAnalyser()] starts from the Web Audio defaults. *)
Definition defaultAnalyser : Analyser :=
  {| fftSize := 2048; smoothingTimeConstant := 0.8 |}.

Definition withFftSize (n : Z) (a : Analyser) : Analyser :=
  {| fftSize := n; smoothingTimeConstant := smoothingTimeConstant a |}.

Definition withSmoothing (k : R) (a : Analyser) : Analyser :=
  {| fftSize := fftSize a; smoothingTimeConstant := k |}.

(** ** The [App] component of the two file-upload visualizers

    Both files carry the same [handleFileUpload] and [togglePlayback];
    they differ in the smoothing constant given to the analyser, which is
    the section variable here. *)
Module FileApp.

Record File := mkFile {
  name : string;
  type : string
}.

(** React state ([audioFile], [isPlaying], [error]), the refs, and the
    browser.  [audioRef] tells whether the hidden audio element is
    mounted. *)
Record World := mkWorld {
  audioFile : option string;
  isPlaying : bool;
  error : option string;
  audioRef : bool;
  audioContextRef : option nat;
  analyserRef : option Analyser;
  sourceRef : option nat;
  browser : Browser
}.

Definition initial : World :=
  {| audioFile := None; isPlaying := false; error := None;
     audioRef := false; audioContextRef := None; analyserRef := None;
     sourceRef := None; browser := freshBrowser |}.

Definition setAudioFile (v : option string) (w : World) : World :=
  {| audioFile := v; isPlaying := isPlaying w; error := error w;
     audioRef := audioRef w; audioContextRef := audioContextRef w;
     analyserRef := analyserRef w; sourceRef := sourceRef w;
     browser := browser w |}.

Definition setIsPlaying (v : bool) (w : World) : World :=
  {| audioFile := audioFile w; isPlaying := v; error := error w;
     audioRef := audioRef w; audioContextRef := audioContextRef w;
     analyserRef := analyserRef w; sourceRef := sourceRef w;
     browser := browser w |}.

Definition setError (v : option string) (w : World) : World :=
  {| audioFile := audioFile w; isPlaying := isPlaying w; error := v;
     audioRef := audioRef w; audioContextRef := audioContextRef w;
     analyserRef := analyserRef w; sourceRef := sourceRef w;
     browser := browser w |}.

Definition setAudioContextRef (v : option nat) (w : World) : World :=
  {| audioFile := audioFile w; isPlaying := isPlaying w; error := error w;
     audioRef := audioRef w; audioContextRef := v;
     analyserRef := analyserRef w; sourceRef := sourceRef w;
     browser := browser w |}.

Definition setAnalyserRef (v : option Analyser) (w : World) : World :=
  {| audioFile := audioFile w; isPlaying := isPlaying w; error := error w;
     audioRef := audioRef w; audioContextRef := audioContextRef w;
     analyserRef := v; sourceRef := sourceRef w;
     browser := browser w |}.

Definition setSourceRef (v : option nat) (w : World) : World :=
  {| audioFile := audioFile w; isPlaying := isPlaying w; error := error w;
     audioRef := audioRef w; audioContextRef := audioContextRef w;
     analyserRef := analyserRef w; sourceRef := v;
     browser := browser w |}.

Definition setBrowser (b : Browser) (w : World) : World :=
  {| audioFile := audioFile w; isPlaying := isPlaying w; error := error w;
     audioRef := audioRef w; audioContextRef := audioContextRef w;
     analyserRef := analyserRef w; sourceRef := sourceRef w;
     browser := b |}.

Definition setAudioRef (v : bool) (w : World) : World :=
  {| audioFile := audioFile w; isPlaying := isPlaying w; error := error w;
     audioRef := v; audioContextRef := audioContextRef w;
     analyserRef := analyserRef w; sourceRef := sourceRef w;
     browser := browser w |}.

Definition call (c : Call) : M World unit :=
  modify (fun w => setBrowser (logCall c (browser w)) w).

Definition newAudioContext : M World nat :=
  fun w =>
    let (c, b) := browserNewContext (browser w) in
    (Normal c, setBrowser b w).

(** [analyserRef.current.field = ...]; a null ref throws. *)
Definition updateAnalyser (f : Analyser -> Analyser) : M World unit :=
  fun w =>
    match analyserRef w with
    | Some a => (Normal tt, setAnalyserRef (Some (f a)) w)
    | None => (Throw "TypeError", w)
    end.

Definition invalidFileMessage : string :=
  "Please upload a valid audio file (mp3, wav, etc.)".

Definition playbackFailedMessage : string :=
  "Playback failed. Try clicking Play again.".

(** [!file || !file.type.startsWith('audio/')] *)
Definition rejected (file : option File) : bool :=
  match file with
  | None => true
  | Some f => negb (String.prefix "audio/" (type f))
  end.

Local Open Scope handler_scope.

(** The render that follows [setAudioFile] with a URL: the block
    [audioFile && ...] is shown, and with it the hidden
    [<audio ref={audioRef}>] element, so React fills the ref. *)
Definition mountAudio : M World unit := modify (setAudioRef true).

(** [file] is [e.target.files[0]]; [url] is what
    [URL.createObjectURL(file)] returns.  On the accepting path the
    handler is followed by the render that mounts the audio element; on
    the rejecting path the selected file, and so what is mounted, stays
    as it was. *)
Definition handleFileUpload (file : option File) (url : string)
  : M World unit :=
  if rejected file then
    modify (setError (Some invalidFileMessage))
  else
    call CreateObjectURL ;;
    modify (setAudioFile (Some url)) ;;
    modify (setError None) ;;
    modify (setIsPlaying false) ;;
    mountAudio.

(** [await audioRef.current.play()] *)
Definition play (outcome : Outcome) : M World unit :=
  call Play ;;
  match outcome with
  | Resolved => ret tt
  | Rejected => throw "NotAllowedError"
  end.

Section WithSmoothing.

Variable smoothing : R.

(** The block guarded by [if (!audioContextRef.current)]. *)
Definition initAudio : M World unit :=
  c <- newAudioContext ;;
  modify (setAudioContextRef (Some c)) ;;
  call (CreateAnalyser c) ;;
  modify (setAnalyserRef (Some defaultAnalyser)) ;;
  updateAnalyser (withFftSize 256) ;;
  updateAnalyser (withSmoothing smoothing) ;;
  call (CreateMediaElementSource c) ;;
  modify (setSourceRef (Some c)) ;;
  call Connect ;;
  call Connect.

(** [isPlaying] is the value the handler closed over.  The early
    [return] of the catch block is the [false] that skips the final
    [setIsPlaying]. *)
Definition togglePlayback (outcome : Outcome) : M World unit :=
  mounted <- gets audioRef ;;
  if negb mounted then ret tt
  else
    ctx <- gets audioContextRef ;;
    when (match ctx with None => true | Some _ => false end)
      initAudio ;;
    playing <- gets isPlaying ;;
    proceed <-
      (if playing : bool then call Pause ;; ret true
       else
         tryCatch (play outcome ;; ret true)
           (fun err =>
              modify (setError (Some playbackFailedMessage)) ;;
              call ConsoleError ;;
              ret false)) ;;
    when proceed (modify (setIsPlaying (negb playing))).

End WithSmoothing.

(** The play button pressed once per element of [outcomes], each press
    running to completion before the next. *)
Fixpoint presses (smoothing : R) (outcomes : list Outcome) : M World unit :=
  match outcomes with
  | [] => ret tt
  | outcome :: later =>
      togglePlayback smoothing outcome ;; presses smoothing later
  end.

End FileApp.

(** ** File-upload 3D visualizer: [AudioBars] with fixed stride *)
Module Bars3D.

Definition barCount : Z := 64.

(** [Math.floor(i * 2)] *)
Definition freqIndex (i : Z) : Z := Zfloor (IZR i * 2).

(** [dataArray[Math.floor(i * 2)] / 255] *)
Definition value (dataArray : Uint8Array) (i : Z) : option R :=
  option_map (fun s => s / 255) (element dataArray (freqIndex i)).

(** [i < 16 ? value * 4 : value * 1.5] *)
Definition bassBoost (i : Z) (value : R) : R :=
  if (i <? 16)%Z then value * 4 else value * 1.5.

(** [Math.max(0.3, bassBoost * 12)] *)
Definition height (i : Z) (value : R) : R :=
  Rmax 0.3 (bassBoost i value * 12).

Definition barX (i : Z) : R := (IZR i - IZR barCount / 2) * 0.9.

(** One iteration of the loop body, given the sampled value. *)
Definition instanceOf (i : Z) (value : R) : Instance :=
  let height := height i value in
  {| position := (barX i, height / 2, 0);
     scale := (0.8, height, 0.8) |}.

Definition bar (dataArray : Uint8Array) (i : Z) : option Instance :=
  option_map (instanceOf i) (value dataArray i).

(** The body of the [useFrame] callback once the guard
    [!analyser || !meshRef.current] has passed. *)
Definition frame (dataArray : Uint8Array) : list (option Instance) :=
  map (bar dataArray) (indices (Z.to_nat barCount)).

(** The [useFrame] callback.  It returns at once unless the analyser prop
    and the mesh ref are both set; [spectrum] is what
    [getByteFrequencyData] writes into the fresh array. *)
Definition useFrame (analyser : option Analyser) (meshRef : bool)
    (spectrum : Uint8Array) : option (list (option Instance)) :=
  match analyser with
  | Some _ => if meshRef then Some (frame spectrum) else None
  | None => None
  end.

(** [smoothingTimeConstant = 0.8] *)
Definition togglePlayback : Outcome -> M FileApp.World unit :=
  FileApp.togglePlayback 0.8.

Definition handleFileUpload := FileApp.handleFileUpload.

End Bars3D.

(** ** File-upload 3D visualizer with a Z formula *)
Module BarsZ.

Definition barCount : Z := 64.

(** [Math.floor(i * (dataArray.length / barCount))] *)
Definition freqIndex (length : Z) (i : Z) : Z :=
  Zfloor (IZR i * (IZR length / IZR barCount)).

Definition value (dataArray : Uint8Array) (i : Z) : option R :=
  option_map (fun s => s / 255)
    (element dataArray (freqIndex (arrayLength dataArray) i)).

Definition bassBoost (i : Z) (value : R) : R :=
  if (i <? 16)%Z then value * 4 else value * 1.5.

Definition height (i : Z) (value : R) : R :=
  Rmax 0.3 (bassBoost i value * 12).

Definition barX (i : Z) : R := (IZR i - IZR barCount / 2) * 0.9.

(** The [switch (zFormula)] statement; [z] starts at 0 and the default
    branch keeps it there. *)
Definition zOffset (zFormula : string) (i : Z) (x t value : R) : R :=
  if String.eqb zFormula "none" then 0
  else if String.eqb zFormula "sine" then sin (x * 0.2 + t) * (value * 5)
  else if String.eqb zFormula "pulse" then sin (t * 3) * (value * 8)
  else if String.eqb zFormula "wave" then
    sin (IZR i * 0.2 + t * 2) * (value * 6 + 2)
  else if String.eqb zFormula "spiral" then
    cos (x * 0.3 + t) * (value * 6) + sin t * 2
  else 0.

(** One iteration; [now] is the reading of [performance.now()] taken
    inside this iteration. *)
Definition instanceOf (zFormula : string) (now : R) (i : Z) (value : R)
  : Instance :=
  let height := height i value in
  let x := barX i in
  let t := now * 0.001 in
  let z := zOffset zFormula i x t value in
  {| position := (x, height / 2, z);
     scale := (0.8, height, 0.8) |}.

Definition bar (zFormula : string) (clock : Z -> R)
    (dataArray : Uint8Array) (i : Z) : option Instance :=
  option_map (instanceOf zFormula (clock i) i) (value dataArray i).

(** The clock is read once per bar, so it is a function of the
    iteration. *)
Definition frame (zFormula : string) (clock : Z -> R)
    (dataArray : Uint8Array) : list (option Instance) :=
  map (bar zFormula clock dataArray) (indices (Z.to_nat barCount)).

Definition useFrame (analyser : option Analyser) (meshRef : bool)
    (zFormula : string) (clock : Z -> R) (spectrum : Uint8Array)
  : option (list (option Instance)) :=
  match analyser with
  | Some _ =>
      if meshRef then Some (frame zFormula clock spectrum) else None
  | None => None
  end.

(** [useState('sine')] and the options of the selector. *)
Definition defaultZFormula : string := "sine".

Definition formulaOptions : list string :=
  ["none"%string; "sine"%string; "wave"%string; "pulse"%string;
   "spiral"%string].

(** [smoothingTimeConstant = 0.85] *)
Definition togglePlayback : Outcome -> M FileApp.World unit :=
  FileApp.togglePlayback 0.85.

Definition handleFileUpload := FileApp.handleFileUpload.

End BarsZ.

(** ** Microphone 2D visualizer ([src/App.jsx]) *)
Module Mic2D.

Record World := mkWorld {
  isVisualizing : bool;
  error : option string;
  audioContextRef : option nat;
  analyserRef : option Analyser;
  animationFrameRef : option nat;
  browser : Browser
}.

Definition initial : World :=
  {| isVisualizing := false; error := None; audioContextRef := None;
     analyserRef := None; animationFrameRef := None;
     browser := freshBrowser |}.

Definition setIsVisualizing (v : bool) (w : World) : World :=
  {| isVisualizing := v; error := error w;
     audioContextRef := audioContextRef w; analyserRef := analyserRef w;
     animationFrameRef := animationFrameRef w; browser := browser w |}.

Definition setError (v : option string) (w : World) : World :=
  {| isVisualizing := isVisualizing w; error := v;
     audioContextRef := audioContextRef w; analyserRef := analyserRef w;
     animationFrameRef := animationFrameRef w; browser := browser w |}.

Definition setAudioContextRef (v : option nat) (w : World) : World :=
  {| isVisualizing := isVisualizing w; error := error w;
     audioContextRef := v; analyserRef := analyserRef w;
     animationFrameRef := animationFrameRef w; browser := browser w |}.

Definition setAnalyserRef (v : option Analyser) (w : World) : World :=
  {| isVisualizing := isVisualizing w; error := error w;
     audioContextRef := audioContextRef w; analyserRef := v;
     animationFrameRef := animationFrameRef w; browser := browser w |}.

Definition setAnimationFrameRef (v : option nat) (w : World) : World :=
  {| isVisualizing := isVisualizing w; error := error w;
     audioContextRef := audioContextRef w; analyserRef := analyserRef w;
     animationFrameRef := v; browser := browser w |}.

Definition setBrowser (b : Browser) (w : World) : World :=
  {| isVisualizing := isVisualizing w; error := error w;
     audioContextRef := audioContextRef w; analyserRef := analyserRef w;
     animationFrameRef := animationFrameRef w; browser := b |}.

Definition call (c : Call) : M World unit :=
  modify (fun w => setBrowser (logCall c (browser w)) w).

Definition newAudioContext : M World nat :=
  fun w =>
    let (c, b) := browserNewContext (browser w) in
    (Normal c, setBrowser b w).

Definition closeContext (c : nat) : M World unit :=
  modify (fun w => setBrowser (browserClose c (browser w)) w).

Definition requestAnimationFrame : M World nat :=
  fun w =>
    let (f, b) := browserRequestFrame (browser w) in
    (Normal f, setBrowser b w).

Definition cancelAnimationFrame (f : nat) : M World unit :=
  modify (fun w => setBrowser (browserCancelFrame f (browser w)) w).

Definition updateAnalyser (f : Analyser -> Analyser) : M World unit :=
  fun w =>
    match analyserRef w with
    | Some a => (Normal tt, setAnalyserRef (Some (f a)) w)
    | None => (Throw "TypeError", w)
    end.

Definition microphoneMessage : string :=
  "Microphone access denied or unavailable. Please allow microphone permission.".

Local Open Scope handler_scope.

(** [await navigator.mediaDevices.getUserMedia({ audio: true })] *)
Definition getUserMedia (outcome : Outcome) : M World unit :=
  call GetUserMedia ;;
  match outcome with
  | Resolved => ret tt
  | Rejected => throw "NotAllowedError"
  end.

(** The scheduling half of [draw]: it re-arms itself and stores the
    handle.  What it paints is [paint] below. *)
Definition draw : M World unit :=
  f <- requestAnimationFrame ;;
  modify (setAnimationFrameRef (Some f)).

(** [analyser.frequencyBinCount] on a null ref throws. *)
Definition drawVisualizer : M World unit :=
  a <- gets analyserRef ;;
  match a with
  | None => throw "TypeError"
  | Some _ => draw
  end.

Definition startVisualizer (outcome : Outcome) : M World unit :=
  tryCatch
    (getUserMedia outcome ;;
     c <- newAudioContext ;;
     modify (setAudioContextRef (Some c)) ;;
     call (CreateMediaStreamSource c) ;;
     call (CreateAnalyser c) ;;
     modify (setAnalyserRef (Some defaultAnalyser)) ;;
     updateAnalyser (withFftSize 256) ;;
     call Connect ;;
     modify (setIsVisualizing true) ;;
     modify (setError None) ;;
     drawVisualizer)
    (fun err =>
       modify (setError (Some microphoneMessage)) ;;
       call ConsoleError).

(** A ref holding [null] or the handle 0 is falsy. *)
Definition truthyHandle (f : option nat) : bool :=
  match f with
  | Some (S _) => true
  | _ => false
  end.

Definition stopVisualizer : M World unit :=
  f <- gets animationFrameRef ;;
  when (truthyHandle f)
    (cancelAnimationFrame (match f with Some n => n | None => O end)) ;;
  c <- gets audioContextRef ;;
  match c with
  | Some c => closeContext c
  | None => ret tt
  end ;;
  modify (setIsVisualizing false).

(** The cleanup of the second [useEffect]. *)
Definition unmount : M World unit := stopVisualizer.

(** The browser runs the oldest scheduled callback, if any. *)
Definition animationFrame : M World unit :=
  fun w =>
    match pending (browser w) with
    | [] => (Normal tt, w)
    | f :: rest =>
        let b := browser w in
        draw (setBrowser
                {| contexts := contexts b; closed := closed b;
                   rejections := rejections b; lastFrame := lastFrame b;
                   pending := rest; calls := calls b |} w)
    end.

(** [n] sessions in a row: the microphone is granted and the
    visualizer is stopped again, [n] times. *)
Fixpoint sessions (n : nat) : M World unit :=
  match n with
  | O => ret tt
  | S n' => startVisualizer Resolved ;; stopVisualizer ;; sessions n'
  end.

(** [n] display refreshes in a row. *)
Fixpoint refreshes (n : nat) : M World unit :=
  match n with
  | O => ret tt
  | S n' => animationFrame ;; refreshes n'
  end.

Local Close Scope handler_scope.

(** *** Painting *)

(** One [fillRect(x, y, w, h)] with its [hsl] fill style. *)
Record Rect := mkRect {
  hueOf : R;
  lightnessOf : R;
  rectX : R;
  rectY : R;
  rectW : R;
  rectH : R
}.

(** [(canvas.width / bufferLength) * 2.5] *)
Definition barWidth (canvasWidth : R) (bufferLength : Z) : R :=
  canvasWidth / IZR bufferLength * 2.5.

(** [dataArray[i] * (canvas.height / 255)] *)
Definition barHeight (canvasHeight : R) (sample : R) : R :=
  sample * (canvasHeight / 255).

(** [i / bufferLength * 60 + 180] *)
Definition hue (bufferLength : Z) (i : Z) : R :=
  IZR i / IZR bufferLength * 60 + 180.

(** [50 + barHeight / canvas.height * 50] *)
Definition lightness (canvasHeight : R) (barHeight : R) : R :=
  50 + barHeight / canvasHeight * 50.

(** The [for] loop of [draw] from bar [i] on, the pen being at [x];
    [samples] are the elements [dataArray[i]], [dataArray[i+1]], ... *)
Fixpoint paintFrom (canvasWidth canvasHeight : R) (bufferLength : Z)
    (i : Z) (x : R) (samples : Uint8Array) : list Rect :=
  match samples with
  | [] => []
  | b :: samples' =>
      let barHeight := barHeight canvasHeight (byteValue b) in
      {| hueOf := hue bufferLength i;
         lightnessOf := lightness canvasHeight barHeight;
         rectX := x;
         rectY := canvasHeight - barHeight;
         rectW := barWidth canvasWidth bufferLength;
         rectH := barHeight |}
      :: paintFrom canvasWidth canvasHeight bufferLength (i + 1)%Z
           (x + (barWidth canvasWidth bufferLength + 1)) samples'
  end.

Definition paint (canvasWidth canvasHeight : R) (dataArray : Uint8Array)
  : list Rect :=
  paintFrom canvasWidth canvasHeight (arrayLength dataArray) 0 0 dataArray.

End Mic2D.

(** ** The height arithmetic on IEEE doubles

    The same expressions on binary64 numbers, as the JavaScript engine
    evaluates them.  The literal 0.3 denotes the nearest double, here as
    there. *)
Module Binary64.

Local Open Scope float_scope.
Set Warnings "-inexact-float".

Definition ofByte (b : Byte.byte) : float :=
  PrimFloat.of_uint63 (Uint63.of_Z (Z.of_N (Byte.to_N b))).

(** [dataArray[k] / 255] for an element [b] *)
Definition value (b : Byte.byte) : float := ofByte b / 255.

Definition bassBoost (i : Z) (value : float) : float :=
  if (i <? 16)%Z then value * 4 else value * 1.5.

(** [Math.max] for two arguments of which the first is not a zero. *)
Definition Math_max (a b : float) : float :=
  if is_nan a || is_nan b then nan
  else if a <? b then b else a.

Definition height (i : Z) (value : float) : float :=
  Math_max 0.3 (bassBoost i value * 12).

Definition ofIndex (i : Z) : float := PrimFloat.of_uint63 (Uint63.of_Z i).

(** [(i - barCount / 2) * 0.9] with [barCount = 64] *)
Definition barX (i : Z) : float := (ofIndex i - ofIndex 64 / 2) * 0.9.

(** [i / bufferLength * 60 + 180] *)
Definition hue (bufferLength i : Z) : float :=
  ofIndex i / ofIndex bufferLength * 60 + 180.

(** [hue] is within [180, 240) at bar [i] and below its value at the
    next bar, if there is one. *)
Definition hueStep (bufferLength i : Z) : bool :=
  (180 <=? hue bufferLength i) && (hue bufferLength i <? 240)
  && ((hue bufferLength i <? hue bufferLength (i + 1))
      || (i + 1 =? bufferLength)%Z).

End Binary64.

(** * Properties *)

Local Open Scope Z_scope.
Local Open Scope R_scope.

(** ** Sampling *)

Lemma element_in_range (dataArray : Uint8Array) (k : Z) :
  (0 <= k < arrayLength dataArray)%Z ->
  exists b, nth_error dataArray (Z.to_nat k) = Some b /\
            element dataArray k = Some (byteValue b).
Proof.
  intros [Hlo Hhi]. unfold element, arrayLength in *.
  destruct (Z.ltb_spec k 0); [lia|].
  destruct (nth_error dataArray (Z.to_nat k)) as [b|] eqn:E.
  - exists b. split; reflexivity.
  - apply nth_error_None in E. lia.
Qed.

Lemma byteValue_range (b : Byte.byte) : 0 <= byteValue b <= 255.
Proof.
  unfold byteValue.
  assert (H : (0 <= Z.of_N (Byte.to_N b) <= 255)%Z).
  { pose proof (Byte.to_N_bounded b). lia. }
  split; [apply (IZR_le 0) | apply (IZR_le _ 255)]; lia.
Qed.

Lemma stride_index (i : Z) : Bars3D.freqIndex i = (i * 2)%Z.
Proof.
  unfold Bars3D.freqIndex.
  replace (IZR i * 2) with (IZR (i * 2)) by (rewrite mult_IZR; reflexivity).
  apply ZfloorZ.
Qed.

Lemma proportional_index (length i : Z) :
  BarsZ.freqIndex length i = (i * length / 64)%Z.
Proof.
  unfold BarsZ.freqIndex, BarsZ.barCount.
  apply Zfloor_eq.
  pose proof (Z.div_mod (i * length) 64 ltac:(lia)) as Hdm.
  pose proof (Z.mod_pos_bound (i * length) 64 ltac:(lia)) as [Hr0 Hr1].
  set (q := (i * length / 64)%Z) in *.
  set (r := ((i * length) mod 64)%Z) in *.
  assert (HR : IZR i * IZR length = 64 * IZR q + IZR r).
  { rewrite <- mult_IZR, Hdm, plus_IZR, mult_IZR. reflexivity. }
  apply (IZR_le 0) in Hr0. apply (IZR_lt _ 64) in Hr1.
  split.
  - apply Rmult_le_reg_l with 64; [lra|]. field_simplify. lra.
  - apply Rmult_lt_reg_l with 64; [lra|]. field_simplify. lra.
Qed.

(** C5. Bar [i] of the proportional variant reads the snapshot at index
    floor(i * N / 64), N being the snapshot length; bar [i] of the simpler
    variant reads at index floor(i * 2) = 2 i.  This holds for every
    integer [i], in particular for the 64 bars. *)
Theorem sampling_index (dataArray : Uint8Array) (i : Z) :
  BarsZ.freqIndex (arrayLength dataArray) i
    = (i * arrayLength dataArray / BarsZ.barCount)%Z
  /\ BarsZ.value dataArray i
    = option_map (fun s => s / 255)
        (element dataArray (i * arrayLength dataArray / 64)%Z)
  /\ Bars3D.freqIndex i = (i * 2)%Z
  /\ Bars3D.value dataArray i
    = option_map (fun s => s / 255) (element dataArray (i * 2)%Z).
Proof.
  unfold BarsZ.value, Bars3D.value.
  rewrite proportional_index, stride_index.
  repeat split; reflexivity.
Qed.

(** With 128 bins the 64 bars of both variants read inside the array. *)
Lemma bars_read_in_range (dataArray : Uint8Array) (i : Z) :
  arrayLength dataArray = 128%Z -> (0 <= i < 64)%Z ->
  (exists v, Bars3D.value dataArray i = Some v /\ 0 <= v <= 1) /\
  (exists v, BarsZ.value dataArray i = Some v /\ 0 <= v <= 1).
Proof.
  intros Hlen Hi. unfold Bars3D.value, BarsZ.value.
  rewrite stride_index, proportional_index, Hlen.
  assert (Hk3 : (0 <= i * 2 < arrayLength dataArray)%Z) by lia.
  assert (Hkz : (0 <= i * 128 / 64 < arrayLength dataArray)%Z).
  { rewrite Hlen. split.
    - apply Z.div_pos; lia.
    - apply Z.div_lt_upper_bound; lia. }
  destruct (element_in_range dataArray _ Hk3) as (b3 & _ & E3).
  destruct (element_in_range dataArray _ Hkz) as (bz & _ & Ez).
  rewrite E3, Ez. cbn [option_map].
  pose proof (byteValue_range b3). pose proof (byteValue_range bz).
  split; eexists; (split; [reflexivity | lra]).
Qed.

Lemma indices_range (n : nat) (i : Z) :
  In i (indices n) <-> (0 <= i < Z.of_nat n)%Z.
Proof.
  unfold indices. rewrite in_map_iff. split.
  - intros (k & <- & Hk). apply in_seq in Hk. lia.
  - intros Hi. exists (Z.to_nat i). split; [lia|]. apply in_seq. lia.
Qed.

(** So a frame on a 128-bin snapshot yields all 64 instances. *)
Lemma frames_complete (zFormula : string) (clock : Z -> R)
    (dataArray : Uint8Array) :
  arrayLength dataArray = 128%Z ->
  List.length (Bars3D.frame dataArray) = 64%nat /\
  List.length (BarsZ.frame zFormula clock dataArray) = 64%nat /\
  Forall (fun bar => bar <> None) (Bars3D.frame dataArray) /\
  Forall (fun bar => bar <> None) (BarsZ.frame zFormula clock dataArray).
Proof.
  intros Hlen. unfold Bars3D.frame, BarsZ.frame.
  split; [reflexivity|]. split; [reflexivity|].
  split; apply Forall_forall; intros bar Hin;
    apply in_map_iff in Hin; destruct Hin as (i & <- & Hi);
    apply indices_range in Hi;
    (destruct (bars_read_in_range dataArray i Hlen)
       as [(v3 & E3 & _) (vz & Ez & _)]; [cbn in Hi; lia|]).
  - unfold Bars3D.bar. rewrite E3. discriminate.
  - unfold BarsZ.bar. rewrite Ez. discriminate.
Qed.

(** Once the analyser is configured and the mesh is mounted, every frame
    of either variant is a full set of 64 instances. *)
Lemma useFrame_configured (a : Analyser) (zFormula : string)
    (clock : Z -> R) (spectrum : Uint8Array) :
  fftSize a = 256%Z -> snapshotOf a spectrum ->
  Bars3D.useFrame (Some a) true spectrum = Some (Bars3D.frame spectrum) /\
  BarsZ.useFrame (Some a) true zFormula clock spectrum
  = Some (BarsZ.frame zFormula clock spectrum) /\
  Forall (fun bar => bar <> None) (Bars3D.frame spectrum) /\
  Forall (fun bar => bar <> None) (BarsZ.frame zFormula clock spectrum).
Proof.
  intros Hfft Hsnap. unfold snapshotOf, frequencyBinCount in Hsnap.
  rewrite Hfft in Hsnap. change (256 / 2)%Z with 128%Z in Hsnap.
  destruct (frames_complete zFormula clock spectrum Hsnap)
    as (_ & _ & H3 & Hz).
  repeat split; assumption.
Qed.

(** ** Heights *)

Lemma heights_agree (i : Z) (v : R) : Bars3D.height i v = BarsZ.height i v.
Proof. reflexivity. Qed.

(** C1. The bar height max(0.3, boosted * 12) is at least 0.3 in both
    file-upload variants, for every bar index and every magnitude (so in
    particular for i in [0,64) and v in [0,1]); at v = 0 it is exactly the
    floor 0.3. *)
Theorem height_floor (i : Z) (v : R) :
  0.3 <= Bars3D.height i v /\ 0.3 <= BarsZ.height i v /\
  Bars3D.height i 0 = 0.3 /\ BarsZ.height i 0 = 0.3.
Proof.
  unfold Bars3D.height, BarsZ.height, Bars3D.bassBoost, BarsZ.bassBoost.
  repeat split; try apply Rmax_l;
    destruct (i <? 16)%Z; apply Rmax_left; lra.
Qed.

Lemma height_boosted (i : Z) (v : R) :
  (i < 16)%Z -> Bars3D.height i v = Rmax 0.3 (v * 48).
Proof.
  intros Hi. unfold Bars3D.height, Bars3D.bassBoost.
  destruct (Z.ltb_spec i 16); [|lia]. f_equal. lra.
Qed.

Lemma height_plain (i : Z) (v : R) :
  (16 <= i)%Z -> Bars3D.height i v = Rmax 0.3 (v * 18).
Proof.
  intros Hi. unfold Bars3D.height, Bars3D.bassBoost.
  destruct (Z.ltb_spec i 16); [lia|]. f_equal. lra.
Qed.

(** C4. For a magnitude v > 0 and bars i1 < 16 <= i2, the boosted bar is
    at least as tall as the other one, in both variants. *)
Theorem bass_boost_monotone (i1 i2 : Z) (v : R) :
  0 < v -> (i1 < 16)%Z -> (16 <= i2)%Z ->
  Bars3D.height i1 v >= Bars3D.height i2 v /\
  BarsZ.height i1 v >= BarsZ.height i2 v.
Proof.
  intros Hv H1 H2.
  assert (H : Bars3D.height i1 v >= Bars3D.height i2 v).
  { rewrite (height_boosted i1 v H1), (height_plain i2 v H2).
    apply Rle_ge, Rle_max_compat_l. lra. }
  split; exact H.
Qed.

Lemma bass_boost_monotone_witness :
  Bars3D.height 0 (1 / 2) >= Bars3D.height 20 (1 / 2) /\
  BarsZ.height 0 (1 / 2) >= BarsZ.height 20 (1 / 2).
Proof. apply (bass_boost_monotone 0 20 (1 / 2)); [lra | lia | lia]. Defined.



(** ** Depth offset *)

(** C2. The depth offset of the formula variant follows the table:
    none gives 0, sine gives sin(x 0.2 + t) (v 5), pulse gives
    sin(t 3) (v 8), wave gives sin(i 0.2 + t 2) (v 6 + 2), spiral gives
    cos(x 0.3 + t) (v 6) + sin(t) 2; for none it is 0 whatever i, x, t
    and v are.  The depth stored for bar i is that offset at the bar's
    position and at a thousandth of the clock reading. *)
Theorem z_offset_table (i : Z) (x t v : R) :
  (forall (zFormula : string) (now : R),
     depth (BarsZ.instanceOf zFormula now i v)
     = BarsZ.zOffset zFormula i (BarsZ.barX i) (now * 0.001) v) /\
  BarsZ.zOffset "none" i x t v = 0 /\
  BarsZ.zOffset "sine" i x t v = sin (x * 0.2 + t) * (v * 5) /\
  BarsZ.zOffset "pulse" i x t v = sin (t * 3) * (v * 8) /\
  BarsZ.zOffset "wave" i x t v = sin (IZR i * 0.2 + t * 2) * (v * 6 + 2) /\
  BarsZ.zOffset "spiral" i x t v
    = cos (x * 0.3 + t) * (v * 6) + sin t * 2.
Proof. repeat split; reflexivity. Qed.

(** Any other string takes the default branch. *)
Lemma z_offset_default (zFormula : string) (i : Z) (x t v : R) :
  ~ In zFormula BarsZ.formulaOptions ->
  BarsZ.zOffset zFormula i x t v = 0.
Proof.
  intros Hnot. unfold BarsZ.zOffset.
  repeat match goal with
  | |- context [String.eqb zFormula ?s] =>
      destruct (String.eqb_spec zFormula s) as [->|_];
      [exfalso; apply Hnot; simpl; tauto|]
  end.
  reflexivity.
Qed.

(** The depth that [frame] stores for a bar is the table entry at the
    bar's own position and clock reading. *)
Lemma bar_depth (zFormula : string) (clock : Z -> R)
    (dataArray : Uint8Array) (i : Z) (v : R) :
  BarsZ.value dataArray i = Some v ->
  option_map position (BarsZ.bar zFormula clock dataArray i)
  = Some (BarsZ.barX i, BarsZ.height i v / 2,
          BarsZ.zOffset zFormula i (BarsZ.barX i) (clock i * 0.001) v).
Proof. intros Hv. unfold BarsZ.bar. rewrite Hv. reflexivity. Qed.

(** C3. The pulse offset does not depend on the bar: two bars with
    different index, hence different position x, but the same value v get
    the same depth when they read the same time; as a function, the pulse
    offset is the same for all i and x. *)
Theorem pulse_lockstep (i1 i2 : Z) (now v : R) :
  i1 <> i2 ->
  let bar1 := BarsZ.instanceOf "pulse" now i1 v in
  let bar2 := BarsZ.instanceOf "pulse" now i2 v in
  abscissa bar1 <> abscissa bar2 /\
  depth bar1 = depth bar2 /\
  depth bar1 = sin (now * 0.001 * 3) * (v * 8) /\
  forall x1 x2 t : R,
    BarsZ.zOffset "pulse" i1 x1 t v = BarsZ.zOffset "pulse" i2 x2 t v.
Proof.
  intros Hne bar1 bar2. split; [|repeat split].
  unfold abscissa, bar1, bar2. cbn [BarsZ.instanceOf position fst].
  unfold BarsZ.barX. intros Hx. apply Hne, eq_IZR. lra.
Qed.

Lemma pulse_lockstep_witness :
  abscissa (BarsZ.instanceOf "pulse" 1000 0 (1 / 2))
  <> abscissa (BarsZ.instanceOf "pulse" 1000 20 (1 / 2)) /\
  depth (BarsZ.instanceOf "pulse" 1000 0 (1 / 2))
  = depth (BarsZ.instanceOf "pulse" 1000 20 (1 / 2)).
Proof.
  destruct (pulse_lockstep 0 20 1000 (1 / 2) ltac:(lia)) as (Hx & Hz & _).
  split; [exact Hx | exact Hz].
Defined.

(** The other three animated formulas do depend on the bar. *)
Lemma sine_depends_on_position :
  BarsZ.zOffset "sine" 0 0 0 1 <> BarsZ.zOffset "sine" 0 (5 * (PI / 2)) 0 1.
Proof.
  change (BarsZ.zOffset "sine" 0 0 0 1) with (sin (0 * 0.2 + 0) * (1 * 5)).
  change (BarsZ.zOffset "sine" 0 (5 * (PI / 2)) 0 1)
    with (sin (5 * (PI / 2) * 0.2 + 0) * (1 * 5)).
  replace (0 * 0.2 + 0) with 0 by lra.
  replace (5 * (PI / 2) * 0.2 + 0) with (PI / 2) by lra.
  rewrite sin_0, sin_PI2. lra.
Qed.

(** ** Colour of the 2D bars *)

(** C6. hue(i) = (i / N) 60 + 180 is, for N > 0, strictly increasing in i
    over [0, N) and stays within [180, 240). *)
Theorem hue_increasing_bounded (N : Z) :
  (0 < N)%Z ->
  (forall i, Mic2D.hue N i = IZR i / IZR N * 60 + 180) /\
  (forall i1 i2, (0 <= i1 < N)%Z -> (0 <= i2 < N)%Z -> (i1 < i2)%Z ->
     Mic2D.hue N i1 < Mic2D.hue N i2) /\
  (forall i, (0 <= i < N)%Z -> 180 <= Mic2D.hue N i < 240).
Proof.
  intros HN. apply (IZR_lt 0) in HN.
  assert (Hinv : 0 < / IZR N) by (apply Rinv_0_lt_compat; exact HN).
  split; [reflexivity|]. unfold Mic2D.hue, Rdiv. split.
  - intros i1 i2 _ _ Hlt. apply IZR_lt in Hlt.
    apply Rplus_lt_compat_r, Rmult_lt_compat_r; [lra|].
    apply Rmult_lt_compat_r; assumption.
  - intros i [Hlo Hhi]. apply (IZR_le 0) in Hlo. apply IZR_lt in Hhi.
    assert (H0 : 0 <= IZR i * / IZR N).
    { apply Rmult_le_pos; lra. }
    assert (H1 : IZR i * / IZR N < 1).
    { apply Rmult_lt_reg_r with (IZR N); [exact HN|].
      rewrite Rmult_assoc, Rinv_l by lra. lra. }
    lra.
Qed.

Lemma hue_increasing_bounded_witness :
  Mic2D.hue 128 0 < Mic2D.hue 128 127 /\ 180 <= Mic2D.hue 128 127 < 240.
Proof.
  destruct (hue_increasing_bounded 128 ltac:(lia)) as (_ & Hinc & Hrange).
  split; [apply Hinc; lia | apply Hrange; lia].
Defined.

(** The rectangles that [draw] paints carry these hues, bar by bar. *)
Lemma paintFrom_hues (cw ch : R) (N : Z) (samples : Uint8Array) :
  forall (i : Z) (x : R),
    map Mic2D.hueOf (Mic2D.paintFrom cw ch N i x samples)
    = map (fun k => Mic2D.hue N (i + Z.of_nat k))
        (seq 0 (List.length samples)).
Proof.
  induction samples as [|b samples IH]; intros i x; [reflexivity|].
  cbn [Mic2D.paintFrom map List.length seq Mic2D.hueOf].
  rewrite IH, <- seq_shift, map_map. f_equal.
  - f_equal. lia.
  - apply map_ext. intros k. f_equal. lia.
Qed.

(** ** Session control of the file-upload variants *)

Ltac run_handler :=
  unfold exec, completes,
    Bars3D.togglePlayback, BarsZ.togglePlayback,
    Bars3D.handleFileUpload, BarsZ.handleFileUpload,
    FileApp.togglePlayback, FileApp.handleFileUpload, FileApp.mountAudio,
    FileApp.initAudio,
    FileApp.play, FileApp.call, FileApp.newAudioContext,
    FileApp.updateAnalyser,
    Mic2D.startVisualizer, Mic2D.stopVisualizer, Mic2D.unmount,
    Mic2D.drawVisualizer, Mic2D.draw, Mic2D.getUserMedia, Mic2D.call,
    Mic2D.newAudioContext, Mic2D.closeContext,
    Mic2D.requestAnimationFrame, Mic2D.cancelAnimationFrame,
    Mic2D.updateAnalyser,
    tryCatch, bind, ret, throw, gets, modify, when;
  cbv beta.

(** The first [togglePlayback] on a mounted audio element creates the
    analyser with [fftSize = 256] and the variant's smoothing constant. *)
Lemma first_toggle_analyser (smoothing : R) (outcome : Outcome)
    (w : FileApp.World) :
  FileApp.audioRef w = true -> FileApp.audioContextRef w = None ->
  FileApp.analyserRef (exec (FileApp.togglePlayback smoothing outcome) w)
  = Some {| fftSize := 256; smoothingTimeConstant := smoothing |}.
Proof.
  intros Hm Hc. run_handler. rewrite Hm. cbn. rewrite Hc. cbn.
  destruct (FileApp.isPlaying w), outcome; reflexivity.
Qed.

(** Later calls keep that analyser: the block is guarded by the ref. *)
Lemma later_toggle_keeps_analyser (smoothing : R) (outcome : Outcome)
    (w : FileApp.World) (c : nat) :
  FileApp.audioContextRef w = Some c ->
  FileApp.analyserRef (exec (FileApp.togglePlayback smoothing outcome) w)
  = FileApp.analyserRef w.
Proof.
  intros Hc. run_handler.
  destruct (FileApp.audioRef w); cbn; [|reflexivity]. rewrite Hc. cbn.
  destruct (FileApp.isPlaying w), outcome; reflexivity.
Qed.

(** C10. In both file-upload variants the analyser gets fftSize 256, so
    a snapshot has 128 bins, and then the fixed-stride index floor(i 2)
    equals the proportional index floor(i N / 64): the two variants read
    the same bin, for every bar. *)
Theorem configured_sampling_agrees (outcome : Outcome) (w : FileApp.World) :
  FileApp.audioRef w = true -> FileApp.audioContextRef w = None ->
  exists a3 az : Analyser,
    FileApp.analyserRef (exec (Bars3D.togglePlayback outcome) w) = Some a3 /\
    FileApp.analyserRef (exec (BarsZ.togglePlayback outcome) w) = Some az /\
    fftSize a3 = 256%Z /\ fftSize az = 256%Z /\
    frequencyBinCount a3 = 128%Z /\ frequencyBinCount az = 128%Z /\
    forall (dataArray : Uint8Array) (i : Z),
      snapshotOf a3 dataArray -> snapshotOf az dataArray ->
      (0 <= i < 64)%Z ->
      Bars3D.freqIndex i = BarsZ.freqIndex (arrayLength dataArray) i /\
      Bars3D.value dataArray i = BarsZ.value dataArray i.
Proof.
  intros Hm Hc.
  exists {| fftSize := 256; smoothingTimeConstant := 0.8 |},
         {| fftSize := 256; smoothingTimeConstant := 0.85 |}.
  split; [apply first_toggle_analyser; assumption|].
  split; [apply first_toggle_analyser; assumption|].
  repeat (split; [reflexivity|]).
  intros dataArray i _ Hsnap _. unfold snapshotOf in Hsnap.
  change (frequencyBinCount _) with 128%Z in Hsnap.
  assert (E : Bars3D.freqIndex i = BarsZ.freqIndex (arrayLength dataArray) i).
  { rewrite Hsnap, stride_index, proportional_index.
    replace (i * 128)%Z with (i * 2 * 64)%Z by lia.
    rewrite Z.div_mul by lia. reflexivity. }
  split; [exact E|].
  unfold Bars3D.value, BarsZ.value. rewrite E. reflexivity.
Qed.

Lemma configured_sampling_agrees_witness :
  exists a3 az : Analyser,
    FileApp.analyserRef
      (exec (Bars3D.togglePlayback Resolved)
         (FileApp.setAudioFile (Some "blob:track"%string)
            {| FileApp.audioFile := None; FileApp.isPlaying := false;
               FileApp.error := None; FileApp.audioRef := true;
               FileApp.audioContextRef := None;
               FileApp.analyserRef := None; FileApp.sourceRef := None;
               FileApp.browser := freshBrowser |})) = Some a3 /\
    FileApp.analyserRef
      (exec (BarsZ.togglePlayback Resolved)
         (FileApp.setAudioFile (Some "blob:track"%string)
            {| FileApp.audioFile := None; FileApp.isPlaying := false;
               FileApp.error := None; FileApp.audioRef := true;
               FileApp.audioContextRef := None;
               FileApp.analyserRef := None; FileApp.sourceRef := None;
               FileApp.browser := freshBrowser |})) = Some az /\
    fftSize a3 = 256%Z /\ fftSize az = 256%Z /\
    frequencyBinCount a3 = 128%Z /\ frequencyBinCount az = 128%Z.
Proof.
  destruct (configured_sampling_agrees Resolved
              (FileApp.setAudioFile (Some "blob:track"%string)
                 {| FileApp.audioFile := None; FileApp.isPlaying := false;
                    FileApp.error := None; FileApp.audioRef := true;
                    FileApp.audioContextRef := None;
                    FileApp.analyserRef := None; FileApp.sourceRef := None;
                    FileApp.browser := freshBrowser |})
              eq_refl eq_refl)
    as (a3 & az & H3 & Hz & F3 & Fz & N3 & Nz & _).
  exists a3, az. repeat split; assumption.
Defined.

(** A valid upload is accepted: the file is selected, the message is
    cleared, and playback is reset. *)
Lemma valid_upload_accepted (file : FileApp.File) (url : string)
    (w : FileApp.World) :
  String.prefix "audio/" (FileApp.type file) = true ->
  let w' := exec (FileApp.handleFileUpload (Some file) url) w in
  FileApp.audioFile w' = Some url /\ FileApp.error w' = None /\
  FileApp.isPlaying w' = false.
Proof.
  intros Hok. run_handler. unfold FileApp.rejected. rewrite Hok.
  cbn. repeat split.
Qed.

(** A successful first play starts playback. *)
Lemma play_resolved_starts (smoothing : R) (w : FileApp.World) :
  FileApp.audioRef w = true -> FileApp.isPlaying w = false ->
  FileApp.isPlaying (exec (FileApp.togglePlayback smoothing Resolved) w)
  = true.
Proof.
  intros Hm Hp. run_handler. rewrite Hm. cbn.
  destruct (FileApp.audioContextRef w); cbn; rewrite Hp; reflexivity.
Qed.

(** A granted microphone starts the visualizer: the flag is set, the
    message is cleared, the analyser has 128 bins and one frame callback
    is pending. *)
Lemma start_resolved_visualizes (w : Mic2D.World) :
  let w' := exec (Mic2D.startVisualizer Resolved) w in
  Mic2D.isVisualizing w' = true /\ Mic2D.error w' = None /\
  Mic2D.audioContextRef w' = Some (contexts (Mic2D.browser w)) /\
  option_map frequencyBinCount (Mic2D.analyserRef w') = Some 128%Z /\
  Mic2D.animationFrameRef w' = Some (S (lastFrame (Mic2D.browser w))) /\
  pending (Mic2D.browser w')
  = pending (Mic2D.browser w) ++ [S (lastFrame (Mic2D.browser w))].
Proof. run_handler. cbn. repeat split. Qed.

(** ** Error handling *)

(** C9. (a) An invalid or missing file selection is rejected at once:
    the handler completes, the message is shown, and the selected file,
    the playing flag, the refs and the browser are untouched.  (b) A
    rejected [getUserMedia] is caught: the handler completes, the message
    is shown, the visualizing flag stays false, and the only calls are the
    one request and the console report.  (b') A rejected [play] is caught
    likewise: the playing flag stays false and [play] was called once.
    Holds for the smoothing constant of either file-upload variant. *)
Theorem error_handling (smoothing : R) (file : option FileApp.File)
    (url : string) (wu wp : FileApp.World) (wm : Mic2D.World) :
  FileApp.rejected file = true ->
  FileApp.audioRef wp = true -> FileApp.isPlaying wp = false ->
  Mic2D.isVisualizing wm = false ->
  (let w' := exec (FileApp.handleFileUpload file url) wu in
   completes (FileApp.handleFileUpload file url) wu /\
   FileApp.error w' = Some FileApp.invalidFileMessage /\
   FileApp.audioFile w' = FileApp.audioFile wu /\
   FileApp.isPlaying w' = FileApp.isPlaying wu /\
   w' = FileApp.setError (Some FileApp.invalidFileMessage) wu)
  /\
  (let w' := exec (Mic2D.startVisualizer Rejected) wm in
   completes (Mic2D.startVisualizer Rejected) wm /\
   Mic2D.error w' = Some Mic2D.microphoneMessage /\
   Mic2D.isVisualizing w' = false /\
   Mic2D.audioContextRef w' = Mic2D.audioContextRef wm /\
   calls (Mic2D.browser w')
   = calls (Mic2D.browser wm) ++ [GetUserMedia; ConsoleError])
  /\
  (let w' := exec (FileApp.togglePlayback smoothing Rejected) wp in
   completes (FileApp.togglePlayback smoothing Rejected) wp /\
   FileApp.error w' = Some FileApp.playbackFailedMessage /\
   FileApp.isPlaying w' = false /\
   FileApp.audioFile w' = FileApp.audioFile wp /\
   exists setup,
     calls (FileApp.browser w')
     = calls (FileApp.browser wp) ++ setup ++ [Play; ConsoleError] /\
     ~ In Play setup).
Proof.
  intros Hrej Hm Hp Hv. split; [|split].
  - run_handler. rewrite Hrej. cbn.
    repeat split; try reflexivity. exists tt. reflexivity.
  - run_handler. cbn. rewrite <- app_assoc.
    repeat split; try reflexivity; try assumption.
    exists tt. reflexivity.
  - run_handler. rewrite Hm. cbn.
    destruct (FileApp.audioContextRef wp) as [c|]; cbn; rewrite Hp; cbn.
    + repeat split; try reflexivity; try assumption;
        [exists tt; reflexivity|].
      exists []. split; [rewrite <- app_assoc; reflexivity|].
      intros [].
    + repeat split; try reflexivity; try assumption;
        [exists tt; reflexivity|].
      set (c := contexts (FileApp.browser wp)).
      exists [NewAudioContext c; CreateAnalyser c;
              CreateMediaElementSource c; Connect; Connect].
      split.
      * rewrite <- !app_assoc. reflexivity.
      * cbn. intros H. decompose [or] H; try discriminate; assumption.
Qed.

Lemma error_handling_witness :
  FileApp.isPlaying
    (exec (FileApp.handleFileUpload None "blob:none") FileApp.initial)
  = false /\
  Mic2D.isVisualizing (exec (Mic2D.startVisualizer Rejected) Mic2D.initial)
  = false /\
  FileApp.isPlaying
    (exec (Bars3D.togglePlayback Rejected)
       (FileApp.mkWorld (Some "blob:track"%string) false None true None
          None None freshBrowser))
  = false.
Proof.
  destruct (error_handling 0.8 None "blob:none" FileApp.initial
              (FileApp.mkWorld (Some "blob:track"%string) false None true
                 None None None freshBrowser)
              Mic2D.initial eq_refl eq_refl eq_refl eq_refl)
    as ((_ & _ & _ & Ha & _) & (_ & _ & Hb & _) & (_ & _ & Hc & _)).
  split; [exact Ha | split; [exact Hb | exact Hc]].
Defined.

(** ** Stopping the microphone visualizer *)

(** [stopVisualizer] always completes and leaves the flag at false. *)
Lemma stop_completes_idle (w : Mic2D.World) :
  completes Mic2D.stopVisualizer w /\
  Mic2D.isVisualizing (exec Mic2D.stopVisualizer w) = false.
Proof.
  run_handler.
  destruct (Mic2D.animationFrameRef w) as [[|f]|]; cbn;
    destruct (Mic2D.audioContextRef w); cbn;
    (split; [exists tt|]; reflexivity).
Qed.

(** It resets the flag only: no ref is cleared. *)
Lemma stop_keeps_refs (w : Mic2D.World) :
  let w' := exec Mic2D.stopVisualizer w in
  Mic2D.audioContextRef w' = Mic2D.audioContextRef w /\
  Mic2D.animationFrameRef w' = Mic2D.animationFrameRef w /\
  Mic2D.analyserRef w' = Mic2D.analyserRef w /\
  Mic2D.error w' = Mic2D.error w.
Proof.
  run_handler.
  destruct (Mic2D.animationFrameRef w) as [[|f]|] eqn:Ef; cbn;
    destruct (Mic2D.audioContextRef w) eqn:Ec; cbn;
    repeat split; assumption.
Qed.

(** Hence a second stop reaches the same component state as the first. *)
Lemma stop_twice_same_state (w : Mic2D.World) :
  let once := exec Mic2D.stopVisualizer w in
  let twice := exec Mic2D.stopVisualizer once in
  Mic2D.isVisualizing twice = Mic2D.isVisualizing once /\
  Mic2D.error twice = Mic2D.error once /\
  Mic2D.audioContextRef twice = Mic2D.audioContextRef once /\
  Mic2D.analyserRef twice = Mic2D.analyserRef once /\
  Mic2D.animationFrameRef twice = Mic2D.animationFrameRef once.
Proof.
  intros once twice.
  destruct (stop_keeps_refs once) as (Hc & Hf & Ha & He).
  destruct (stop_completes_idle once) as [_ H2].
  destruct (stop_completes_idle w) as [_ H1].
  subst twice. rewrite H2, Hc, Hf, Ha, He. subst once. rewrite H1.
  repeat split.
Qed.

(** Before any start the guards hold and stop calls nothing. *)
Lemma stop_before_start :
  exec Mic2D.stopVisualizer Mic2D.initial = Mic2D.initial.
Proof. reflexivity. Qed.

(** Every stop with a context in the ref calls [close()] on it, whether
    or not it was closed before. *)
Lemma stop_closes_each_time (w : Mic2D.World) (c : nat) :
  Mic2D.audioContextRef w = Some c ->
  closeCalls c (Mic2D.browser (exec Mic2D.stopVisualizer w))
  = S (closeCalls c (Mic2D.browser w)).
Proof.
  intros Hc. run_handler.
  destruct (Mic2D.animationFrameRef w) as [[|f]|]; cbn; rewrite Hc; cbn;
    rewrite !count_occ_app; cbn [count_occ];
    repeat match goal with
    | |- context [Call_eq_dec ?a ?b] =>
        destruct (Call_eq_dec a b); try congruence
    end; unfold closeCalls; lia.
Qed.

(** After a stop the context of the ref is closed. *)
Lemma stop_leaves_closed (w : Mic2D.World) (c : nat) :
  Mic2D.audioContextRef w = Some c ->
  isClosed c (Mic2D.browser (exec Mic2D.stopVisualizer w)) = true.
Proof.
  intros Hc. run_handler.
  destruct (Mic2D.animationFrameRef w) as [[|f]|]; cbn; rewrite Hc; cbn;
    unfold isClosed; cbn [closed browserCancelFrame];
    destruct (existsb (Nat.eqb c) (closed (Mic2D.browser w))) eqn:E;
    try exact E;
    rewrite existsb_app, E; cbn; rewrite Nat.eqb_refl; reflexivity.
Qed.

(** A stop on a closed context makes [close()] return a rejected
    promise. *)
Lemma stop_on_closed_rejected (w : Mic2D.World) (c : nat) :
  Mic2D.audioContextRef w = Some c ->
  isClosed c (Mic2D.browser w) = true ->
  In c (rejections (Mic2D.browser (exec Mic2D.stopVisualizer w))).
Proof.
  intros Hc Hclosed. run_handler.
  destruct (Mic2D.animationFrameRef w) as [[|f]|]; cbn; rewrite Hc; cbn;
    unfold isClosed in *; cbn [closed browserCancelFrame];
    rewrite Hclosed; apply in_or_app; right; left; reflexivity.
Qed.

(** So the second of two stops always produces such a rejection. *)
Lemma second_stop_rejected (w : Mic2D.World) (c : nat) :
  Mic2D.audioContextRef w = Some c ->
  In c (rejections
          (Mic2D.browser
             (exec Mic2D.stopVisualizer (exec Mic2D.stopVisualizer w)))).
Proof.
  intros Hc. apply stop_on_closed_rejected.
  - destruct (stop_keeps_refs w) as [-> _]. exact Hc.
  - apply stop_leaves_closed. exact Hc.
Qed.

(** Stop cancels the frame callback that start scheduled. *)
Lemma stop_cancels_frame (w : Mic2D.World) :
  pending (Mic2D.browser w) = [] ->
  pending
    (Mic2D.browser
       (exec Mic2D.stopVisualizer (exec (Mic2D.startVisualizer Resolved) w)))
  = [].
Proof.
  intros Hp. run_handler. cbn. rewrite Hp. cbn.
  rewrite Nat.eqb_refl. reflexivity.
Qed.

(** With no callback pending the frame loop is over: a display refresh
    runs nothing. *)
Lemma frame_loop_stopped (w : Mic2D.World) :
  pending (Mic2D.browser w) = [] ->
  Mic2D.animationFrame w = (Normal tt, w).
Proof. intros Hp. unfold Mic2D.animationFrame. rewrite Hp. reflexivity. Qed.

(** While it runs, each refresh replaces the callback by exactly one new
    one and stores its handle. *)
Lemma frame_loop_rearms (w : Mic2D.World) (f : nat) :
  pending (Mic2D.browser w) = [f] ->
  let w' := exec Mic2D.animationFrame w in
  pending (Mic2D.browser w') = [S (lastFrame (Mic2D.browser w))] /\
  Mic2D.animationFrameRef w' = Some (S (lastFrame (Mic2D.browser w))).
Proof.
  intros Hp. unfold exec, Mic2D.animationFrame. rewrite Hp.
  run_handler. cbn. split; reflexivity.
Qed.

(** C8, evaluated on the run that breaks it.  The microphone is granted,
    the user stops the visualizer, and the component is unmounted, which
    runs [stopVisualizer] again.  The component state is the same idle
    state after both stops, but [close()] is called on the one audio
    context twice and [cancelAnimationFrame] on the one handle twice: the
    refs are never cleared, so the guards pass again, and the second
    [close()] hits a closed context and is rejected, where exactly one
    release is required. *)
Theorem stop_twice_closes_twice :
  let started := exec (Mic2D.startVisualizer Resolved) Mic2D.initial in
  let stopped := exec Mic2D.stopVisualizer started in
  let again := exec Mic2D.unmount stopped in
  Mic2D.audioContextRef started = Some 0%nat /\
  Mic2D.isVisualizing stopped = false /\
  Mic2D.isVisualizing again = false /\
  closeCalls 0 (Mic2D.browser stopped) = 1%nat /\
  closeCalls 0 (Mic2D.browser again) = 2%nat /\
  rejections (Mic2D.browser stopped) = [] /\
  rejections (Mic2D.browser again) = [0%nat] /\
  calls (Mic2D.browser again)
  = [GetUserMedia; NewAudioContext 0; CreateMediaStreamSource 0;
     CreateAnalyser 0; Connect; RequestAnimationFrame 1;
     CancelAnimationFrame 1; CloseContext 0;
     CancelAnimationFrame 1; CloseContext 0].
Proof. repeat split. Qed.

(** ** The heights on doubles

    For each of the 256 bytes an analyser can deliver and each bar, the
    double-precision height is a number, is at least the double 0.3, and
    the boosted bars are at least as tall as the others. *)

Set Warnings "-inexact-float".

(** X24. On IEEE doubles, for each of the 256 bytes and every bar, the
    height is a number (not NaN) and at least the double 0.3. *)
Lemma binary64_height_floor (b : Byte.byte) (i : Z) :
  PrimFloat.is_nan (Binary64.height i (Binary64.value b)) = false /\
  PrimFloat.leb 0.3%float (Binary64.height i (Binary64.value b)) = true.
Proof.
  unfold Binary64.height, Binary64.bassBoost.
  destruct (i <? 16)%Z; destruct b; vm_compute; split; reflexivity.
Qed.

(** X25. On IEEE doubles, for each of the 256 bytes, a boosted bar
    (i1 < 16) is at least as tall as an unboosted one (16 <= i2). *)
Lemma binary64_bass_boost_monotone (b : Byte.byte) (i1 i2 : Z) :
  (i1 < 16)%Z -> (16 <= i2)%Z ->
  PrimFloat.leb (Binary64.height i2 (Binary64.value b))
                (Binary64.height i1 (Binary64.value b)) = true.
Proof.
  intros H1 H2. unfold Binary64.height, Binary64.bassBoost.
  destruct (Z.ltb_spec i1 16); [|lia].
  destruct (Z.ltb_spec i2 16); [lia|].
  destruct b; vm_compute; reflexivity.
Qed.

Lemma binary64_bass_boost_monotone_witness :
  PrimFloat.leb (Binary64.height 20 (Binary64.value Byte.x80))
                (Binary64.height 0 (Binary64.value Byte.x80)) = true.
Proof.
  apply (binary64_bass_boost_monotone Byte.x80 0 20); lia.
Defined.

Lemma binary64_scenario :
  Binary64.value Byte.xff = 1%float /\
  Binary64.bassBoost 0 1 = 4%float /\
  Binary64.height 0 1 = 48%float /\
  Binary64.bassBoost 20 0.5 = 0.75%float /\
  Binary64.height 20 0.5 = 9%float.
Proof. vm_compute. repeat split. Qed.

(** With the 128 bins of [fftSize = 256] the double-precision hues of the
    2D bars increase strictly and stay within [180, 240). *)
Lemma binary64_hue_128 :
  forallb (Binary64.hueStep 128) (indices 128) = true.
Proof. vm_compute. reflexivity. Qed.

(** * Further properties of the components *)

(** ** Sampling bounds *)

Lemma element_defined_iff (dataArray : Uint8Array) (k : Z) :
  element dataArray k <> None <-> (0 <= k < arrayLength dataArray)%Z.
Proof.
  split.
  - unfold element, arrayLength. intros Hdef.
    destruct (Z.ltb_spec k 0); [contradiction|].
    destruct (nth_error dataArray (Z.to_nat k)) eqn:E; [|contradiction].
    assert (Hlt : (Z.to_nat k < List.length dataArray)%nat).
    { apply nth_error_Some. rewrite E. discriminate. }
    lia.
  - intros Hk. destruct (element_in_range dataArray k Hk) as (b & _ & ->).
    discriminate.
Qed.

Lemma option_map_defined {A B : Type} (f : A -> B) (o : option A) :
  option_map f o <> None <-> o <> None.
Proof.
  destruct o; cbn; split; intros H; try discriminate;
    exfalso; apply H; reflexivity.
Qed.

(** X1. The fixed-stride variant reads bar i inside the array exactly when
    2 i is below the array length, so a snapshot of fewer than 127 bins
    leaves the upper bars undefined; the proportional variant reads every
    one of the 64 bars inside any non-empty snapshot. *)
Theorem sample_defined (dataArray : Uint8Array) (i : Z) :
  (0 <= i < 64)%Z ->
  (Bars3D.value dataArray i <> None
   <-> (2 * i < arrayLength dataArray)%Z) /\
  ((0 < arrayLength dataArray)%Z -> BarsZ.value dataArray i <> None) /\
  (arrayLength dataArray = 0%Z -> BarsZ.value dataArray i = None).
Proof.
  intros Hi. unfold Bars3D.value, BarsZ.value.
  rewrite stride_index, proportional_index. repeat split.
  - intros H. apply option_map_defined, element_defined_iff in H. lia.
  - intros H. apply option_map_defined, element_defined_iff. lia.
  - intros HN. apply option_map_defined, element_defined_iff. split.
    + apply Z.div_pos; lia.
    + apply Z.div_lt_upper_bound; nia.
  - intros HN. rewrite HN.
    destruct dataArray; [|discriminate HN].
    unfold element. destruct (_ <? 0)%Z; [reflexivity|].
    destruct (Z.to_nat _); reflexivity.
Qed.

Lemma sample_defined_witness :
  Bars3D.value (repeat Byte.x80 64) 40 = None /\
  BarsZ.value (repeat Byte.x80 64) 40 <> None.
Proof.
  destruct (sample_defined (repeat Byte.x80 64) 40 ltac:(lia))
    as (H3 & Hz & _).
  split.
  - destruct (Bars3D.value (repeat Byte.x80 64) 40) eqn:E; [|reflexivity].
    exfalso. assert (Hd : Some r <> None) by discriminate.
    apply H3 in Hd. vm_compute in Hd. discriminate Hd.
  - apply Hz. reflexivity.
Defined.

(** X2. The proportional index never decreases with the bar, stays below
    the snapshot length, and from 64 bins on no two bars share a bin. *)
Theorem proportional_index_increasing (length i j : Z) :
  (0 <= i < j)%Z -> (j < 64)%Z -> (0 < length)%Z ->
  (BarsZ.freqIndex length i <= BarsZ.freqIndex length j)%Z /\
  (0 <= BarsZ.freqIndex length i)%Z /\
  (BarsZ.freqIndex length j < length)%Z /\
  ((64 <= length)%Z ->
   (BarsZ.freqIndex length i < BarsZ.freqIndex length j)%Z).
Proof.
  intros Hij Hj HN. rewrite !proportional_index. repeat split.
  - apply Z.div_le_mono; nia.
  - apply Z.div_pos; nia.
  - apply Z.div_lt_upper_bound; nia.
  - intros H64.
    apply Z.lt_le_trans with ((i * length + 1 * 64) / 64)%Z.
    + rewrite Z.div_add by lia. lia.
    + apply Z.div_le_mono; nia.
Qed.

Lemma proportional_index_increasing_witness :
  (BarsZ.freqIndex 128 5 <= BarsZ.freqIndex 128 6)%Z /\
  (0 <= BarsZ.freqIndex 128 5)%Z /\
  (BarsZ.freqIndex 128 6 < 128)%Z.
Proof.
  destruct (proportional_index_increasing 128 5 6
              ltac:(lia) ltac:(lia) ltac:(lia)) as (H1 & H2 & H3 & _).
  split; [exact H1 | split; [exact H2 | exact H3]].
Defined.

(** ** Heights *)

(** X4. The height never decreases when the magnitude grows, and for a
    magnitude in [0, 1] it is at most 48 on the 16 boosted bars and at
    most 18 on the others. *)
Theorem height_monotone_bounded (i : Z) (v1 v2 : R) :
  0 <= v1 -> v1 <= v2 -> v2 <= 1 ->
  Bars3D.height i v1 <= Bars3D.height i v2 /\
  Bars3D.height i v2 <= 48 /\
  ((16 <= i)%Z -> Bars3D.height i v2 <= 18) /\
  BarsZ.height i v1 <= BarsZ.height i v2 /\
  BarsZ.height i v2 <= 48.
Proof.
  intros H0 H12 H1.
  assert (Hmono : Bars3D.height i v1 <= Bars3D.height i v2).
  { unfold Bars3D.height, Bars3D.bassBoost.
    destruct (i <? 16)%Z; apply Rle_max_compat_l; lra. }
  assert (H48 : Bars3D.height i v2 <= 48).
  { unfold Bars3D.height, Bars3D.bassBoost.
    destruct (i <? 16)%Z; apply Rmax_lub; lra. }
  repeat split; try assumption.
  intros Hi. rewrite height_plain by exact Hi. apply Rmax_lub; lra.
Qed.

Lemma height_monotone_bounded_witness :
  Bars3D.height 3 (1 / 4) <= Bars3D.height 3 (1 / 2) /\
  Bars3D.height 3 (1 / 2) <= 48.
Proof.
  destruct (height_monotone_bounded 3 (1 / 4) (1 / 2)
              ltac:(lra) ltac:(lra) ltac:(lra)) as (H1 & H2 & _).
  split; [exact H1 | exact H2].
Defined.

Lemma Rmax_floor_iff (a b : R) : Rmax a b = a <-> b <= a.
Proof.
  split; intros H.
  - rewrite <- H. apply Rmax_r.
  - apply Rmax_left. exact H.
Qed.

(** X5. A bar is at the floor height 0.3 exactly for the weakest bytes:
    0 and 1 on the boosted bars, 0 to 4 on the others.  Every louder
    sample raises the bar above the floor. *)
Theorem floor_height_bytes (b : Byte.byte) (i : Z) :
  Bars3D.height i (byteValue b / 255) = 0.3
  <-> (Z.of_N (Byte.to_N b) <= (if (i <? 16)%Z then 1 else 4))%Z.
Proof.
  unfold Bars3D.height, Bars3D.bassBoost, byteValue.
  set (n := Z.of_N (Byte.to_N b)).
  rewrite Rmax_floor_iff.
  destruct (i <? 16)%Z; split; intros H.
  - assert (Hlt : IZR n < 2) by lra. apply lt_IZR in Hlt. lia.
  - apply IZR_le in H. lra.
  - assert (Hlt : IZR n < 5) by lra. apply lt_IZR in Hlt. lia.
  - apply IZR_le in H. lra.
Qed.

(** ** Whole frames *)

Lemma nth_error_indices (n k : nat) :
  (k < n)%nat -> nth_error (indices n) k = Some (Z.of_nat k).
Proof.
  intros Hk. unfold indices.
  rewrite nth_error_map, nth_error_seq.
  destruct (Nat.ltb_spec k n); [reflexivity | lia].
Qed.

(** X6. On a 128-bin snapshot the k-th entry of a frame is the bar built
    from the byte at bin 2 k: it sits at x = (k - 32) 0.9 and its height
    lies between 0.3 and 48. *)
Theorem frame_entry (spectrum : Uint8Array) (k : nat) :
  arrayLength spectrum = 128%Z -> (k < 64)%nat ->
  exists (b : Byte.byte) (bar : Instance),
    nth_error spectrum (2 * k) = Some b /\
    nth_error (Bars3D.frame spectrum) k = Some (Some bar) /\
    bar = Bars3D.instanceOf (Z.of_nat k) (byteValue b / 255) /\
    abscissa bar = (INR k - 32) * 0.9 /\
    0.3 <= tallness bar <= 48.
Proof.
  intros Hlen Hk.
  assert (Hin : (0 <= Z.of_nat k * 2 < arrayLength spectrum)%Z) by lia.
  destruct (element_in_range spectrum _ Hin) as (b & Hnth & Hel).
  replace (Z.to_nat (Z.of_nat k * 2)) with (2 * k)%nat in Hnth by lia.
  assert (Hv : 0 <= byteValue b / 255 <= 1).
  { pose proof (byteValue_range b). lra. }
  exists b, (Bars3D.instanceOf (Z.of_nat k) (byteValue b / 255)).
  split; [exact Hnth|]. split; [|split; [reflexivity|split]].
  - unfold Bars3D.frame.
    rewrite nth_error_map, nth_error_indices by exact Hk.
    cbn [option_map]. unfold Bars3D.bar, Bars3D.value.
    rewrite stride_index, Hel. reflexivity.
  - unfold abscissa, Bars3D.instanceOf, Bars3D.barX, Bars3D.barCount.
    cbn [position fst]. rewrite <- INR_IZR_INZ. lra.
  - unfold tallness, Bars3D.instanceOf. cbn [scale fst snd].
    split; [apply Rmax_l|].
    unfold Bars3D.height, Bars3D.bassBoost.
    destruct (_ <? 16)%Z; apply Rmax_lub; lra.
Qed.

Lemma frame_entry_witness :
  exists (b : Byte.byte) (bar : Instance),
    nth_error (repeat Byte.x80 128) (2 * 20) = Some b /\
    nth_error (Bars3D.frame (repeat Byte.x80 128)) 20 = Some (Some bar).
Proof.
  destruct (frame_entry (repeat Byte.x80 128) 20 eq_refl ltac:(lia))
    as (b & bar & H1 & H2 & _).
  exists b, bar. split; [exact H1 | exact H2].
Defined.

Lemma indices_agree_128 (i : Z) :
  BarsZ.freqIndex 128 i = Bars3D.freqIndex i.
Proof.
  rewrite stride_index, proportional_index.
  replace (i * 128)%Z with (i * 2 * 64)%Z by lia.
  apply Z.div_mul. lia.
Qed.









(** X7. With the formula "none", or with any string that is not one of
    the five options, the formula variant draws on a 128-bin snapshot
    exactly the frame of the plain variant, whatever the clock reads. *)
Theorem flat_frames_agree (zFormula : string) (clock : Z -> R)
    (spectrum : Uint8Array) :
  arrayLength spectrum = 128%Z ->
  zFormula = "none"%string \/ ~ In zFormula BarsZ.formulaOptions ->
  BarsZ.frame zFormula clock spectrum = Bars3D.frame spectrum.
Proof.
  intros Hlen Hflat. unfold BarsZ.frame, Bars3D.frame.
  apply map_ext. intros i.
  unfold BarsZ.bar, Bars3D.bar, BarsZ.value, Bars3D.value.
  rewrite Hlen, indices_agree_128.
  destruct (element spectrum (Bars3D.freqIndex i)) as [s|]; [|reflexivity].
  cbn [option_map]. f_equal.
  unfold BarsZ.instanceOf, Bars3D.instanceOf.
  assert (Hz : BarsZ.zOffset zFormula i (BarsZ.barX i)
                 (clock i * 0.001) (s / 255) = 0).
  { destruct Hflat as [-> | Hnot]; [reflexivity|].
    apply z_offset_default. exact Hnot. }
  rewrite Hz. reflexivity.
Qed.

Lemma flat_frames_agree_witness :
  BarsZ.frame "none" (fun _ => 0) (repeat Byte.x80 128)
  = Bars3D.frame (repeat Byte.x80 128).
Proof.
  apply (flat_frames_agree "none" (fun _ => 0) (repeat Byte.x80 128)
           eq_refl (or_introl eq_refl)).
Defined.

(** ** Depth offsets *)

(** Whatever the string, the offset is one of six expressions. *)
Lemma zOffset_case (P : R -> Prop) (zFormula : string) (i : Z)
    (x t v : R) :
  P 0 ->
  P (sin (x * 0.2 + t) * (v * 5)) ->
  P (sin (t * 3) * (v * 8)) ->
  P (sin (IZR i * 0.2 + t * 2) * (v * 6 + 2)) ->
  P (cos (x * 0.3 + t) * (v * 6) + sin t * 2) ->
  P (BarsZ.zOffset zFormula i x t v).
Proof.
  intros H0 Hsine Hpulse Hwave Hspiral. unfold BarsZ.zOffset.
  repeat match goal with
  | |- context [String.eqb zFormula ?s] => destruct (String.eqb zFormula s)
  end; assumption.
Qed.

(** X8. For a magnitude v in [0, 1] no formula, and no other string,
    moves a bar further than 6 v + 2 from the row, hence never further
    than 8. *)
Theorem z_offset_bounded (zFormula : string) (i : Z) (x t v : R) :
  0 <= v <= 1 ->
  Rabs (BarsZ.zOffset zFormula i x t v) <= 6 * v + 2 /\
  Rabs (BarsZ.zOffset zFormula i x t v) <= 8.
Proof.
  intros Hv.
  assert (H : Rabs (BarsZ.zOffset zFormula i x t v) <= 6 * v + 2).
  { pose proof (SIN_bound (x * 0.2 + t)). pose proof (SIN_bound (t * 3)).
    pose proof (SIN_bound (IZR i * 0.2 + t * 2)). pose proof (SIN_bound t).
    pose proof (COS_bound (x * 0.3 + t)).
    apply zOffset_case; apply Rabs_le; split; nra. }
  split; [exact H | lra].
Qed.

Lemma z_offset_bounded_witness :
  Rabs (BarsZ.zOffset "spiral" 7 (-22.5) 3 (1 / 2)) <= 8.
Proof.
  apply (z_offset_bounded "spiral" 7 (-22.5) 3 (1 / 2)). lra.
Defined.

(** X9. In silence (v = 0) the formulas none, sine and pulse keep every
    bar in the row, while wave still moves bar i by 2 sin(0.2 i + 2 t) and
    spiral moves all bars together by 2 sin t.  Both still swing silent
    bars out to depth 2: the spiral all of them at t = pi / 2, the wave
    bar i at t = pi / 4 - 0.1 i. *)
Theorem z_offset_in_silence (i : Z) (x t : R) :
  BarsZ.zOffset "none" i x t 0 = 0 /\
  BarsZ.zOffset "sine" i x t 0 = 0 /\
  BarsZ.zOffset "pulse" i x t 0 = 0 /\
  BarsZ.zOffset "wave" i x t 0 = 2 * sin (IZR i * 0.2 + t * 2) /\
  BarsZ.zOffset "spiral" i x t 0 = 2 * sin t /\
  BarsZ.zOffset "spiral" i x (PI / 2) 0 = 2 /\
  BarsZ.zOffset "wave" i x (PI / 4 - IZR i * 0.1) 0 = 2.
Proof.
  split; [|split; [|split; [|split; [|split; [|split]]]]]; [reflexivity | | | | | |].
  - change (sin (x * 0.2 + t) * (0 * 5) = 0). lra.
  - change (sin (t * 3) * (0 * 8) = 0). lra.
  - change (sin (IZR i * 0.2 + t * 2) * (0 * 6 + 2)
            = 2 * sin (IZR i * 0.2 + t * 2)). lra.
  - change (cos (x * 0.3 + t) * (0 * 6) + sin t * 2 = 2 * sin t). lra.
  - change (cos (x * 0.3 + PI / 2) * (0 * 6) + sin (PI / 2) * 2 = 2).
    rewrite sin_PI2. lra.
  - change (sin (IZR i * 0.2 + (PI / 4 - IZR i * 0.1) * 2) * (0 * 6 + 2)
            = 2).
    replace (IZR i * 0.2 + (PI / 4 - IZR i * 0.1) * 2) with (PI / 2)
      by lra.
    rewrite sin_PI2. lra.
Qed.



(** ** The file-upload session *)

(** X11. [handleFileUpload] always completes.  It either rejects the
    selection (no file, or a type that does not start with audio/) and
    only shows the message, or accepts it: then it asks the browser for
    one object URL, selects it, clears the message, resets the playing
    flag, and the audio element is mounted.  In neither case does it call
    [play] or [pause] or touch the audio graph: a track that is playing
    is not paused, and no context, analyser or source is built or
    dropped. *)
Theorem upload_outcome (file : option FileApp.File) (url : string)
    (w : FileApp.World) :
  let w' := exec (FileApp.handleFileUpload file url) w in
  completes (FileApp.handleFileUpload file url) w /\
  (if FileApp.rejected file
   then w' = FileApp.setError (Some FileApp.invalidFileMessage) w
   else FileApp.audioFile w' = Some url /\ FileApp.error w' = None /\
        FileApp.isPlaying w' = false /\ FileApp.audioRef w' = true /\
        calls (FileApp.browser w')
        = calls (FileApp.browser w) ++ [CreateObjectURL]) /\
  ~ In Play (skipn (List.length (calls (FileApp.browser w)))
               (calls (FileApp.browser w'))) /\
  ~ In Pause (skipn (List.length (calls (FileApp.browser w)))
                (calls (FileApp.browser w'))) /\
  contexts (FileApp.browser w') = contexts (FileApp.browser w) /\
  FileApp.audioContextRef w' = FileApp.audioContextRef w /\
  FileApp.analyserRef w' = FileApp.analyserRef w /\
  FileApp.sourceRef w' = FileApp.sourceRef w.
Proof.
  run_handler. destruct (FileApp.rejected file); cbn.
  - rewrite skipn_all. repeat split; try (intros []). exists tt.
    reflexivity.
  - rewrite skipn_app, skipn_all, Nat.sub_diag. cbn.
    repeat split; try (intros [H|[]]; discriminate H).
    exists tt. reflexivity.
Qed.

Lemma toggle_completes (smoothing : R) (outcome : Outcome)
    (w : FileApp.World) :
  fst (FileApp.togglePlayback smoothing outcome w) = Normal tt.
Proof.
  run_handler. destruct (FileApp.audioRef w); cbn; [|reflexivity].
  destruct (FileApp.audioContextRef w); cbn;
    destruct (FileApp.isPlaying w), outcome; reflexivity.
Qed.

Lemma toggle_keeps_graph (smoothing : R) (outcome : Outcome)
    (w : FileApp.World) (c : nat) :
  FileApp.audioContextRef w = Some c ->
  let w' := exec (FileApp.togglePlayback smoothing outcome) w in
  FileApp.audioContextRef w' = Some c /\
  FileApp.analyserRef w' = FileApp.analyserRef w /\
  FileApp.sourceRef w' = FileApp.sourceRef w /\
  FileApp.audioRef w' = FileApp.audioRef w /\
  contexts (FileApp.browser w') = contexts (FileApp.browser w).
Proof.
  intros Hc. run_handler.
  destruct (FileApp.audioRef w) eqn:Hm; cbn.
  - rewrite Hc. cbn.
    destruct (FileApp.isPlaying w), outcome; cbn; repeat split; assumption.
  - repeat split; assumption.
Qed.

Lemma toggle_builds_graph (smoothing : R) (outcome : Outcome)
    (w : FileApp.World) :
  FileApp.audioRef w = true -> FileApp.audioContextRef w = None ->
  let w' := exec (FileApp.togglePlayback smoothing outcome) w in
  FileApp.audioContextRef w' = Some (contexts (FileApp.browser w)) /\
  FileApp.sourceRef w' = Some (contexts (FileApp.browser w)) /\
  FileApp.audioRef w' = true /\
  contexts (FileApp.browser w') = S (contexts (FileApp.browser w)).
Proof.
  intros Hm Hc. run_handler. rewrite Hm. cbn. rewrite Hc. cbn.
  destruct (FileApp.isPlaying w), outcome; cbn; repeat split;
    exact Hm.
Qed.

Lemma presses_cons (smoothing : R) (outcome : Outcome)
    (later : list Outcome) (w : FileApp.World) :
  exec (FileApp.presses smoothing (outcome :: later)) w
  = exec (FileApp.presses smoothing later)
      (exec (FileApp.togglePlayback smoothing outcome) w).
Proof.
  unfold exec. cbn [FileApp.presses]. unfold bind.
  pose proof (toggle_completes smoothing outcome w) as Hc.
  destruct (FileApp.togglePlayback smoothing outcome w) as [r w'].
  cbn in Hc. subst r. reflexivity.
Qed.

Lemma presses_keep_graph (smoothing : R) (outcomes : list Outcome) :
  forall (w : FileApp.World) (c : nat),
    FileApp.audioContextRef w = Some c ->
    let w' := exec (FileApp.presses smoothing outcomes) w in
    FileApp.audioContextRef w' = Some c /\
    FileApp.analyserRef w' = FileApp.analyserRef w /\
    FileApp.sourceRef w' = FileApp.sourceRef w /\
    contexts (FileApp.browser w') = contexts (FileApp.browser w).
Proof.
  induction outcomes as [|outcome later IH]; intros w c Hc.
  - repeat split. exact Hc.
  - cbv zeta. rewrite presses_cons.
    destruct (toggle_keeps_graph smoothing outcome w c Hc)
      as (Hc' & Ha & Hs & _ & Hn).
    destruct (IH _ c Hc') as (Hc'' & Ha' & Hs' & Hn').
    rewrite Hc'', Ha', Hs', Hn', Ha, Hs, Hn. repeat split.
Qed.

(** X12. However often the play button is pressed and however the
    playback attempts end, the audio graph is built exactly once, on the
    first press: one audio context is constructed, and the context, the
    analyser (fftSize 256, the variant's smoothing) and the source stay
    the ones of the first press. *)
Theorem graph_built_once (smoothing : R) (outcome : Outcome)
    (later : list Outcome) (w : FileApp.World) :
  FileApp.audioRef w = true -> FileApp.audioContextRef w = None ->
  let w' := exec (FileApp.presses smoothing (outcome :: later)) w in
  contexts (FileApp.browser w') = S (contexts (FileApp.browser w)) /\
  FileApp.audioContextRef w' = Some (contexts (FileApp.browser w)) /\
  FileApp.sourceRef w' = Some (contexts (FileApp.browser w)) /\
  FileApp.analyserRef w'
  = Some {| fftSize := 256; smoothingTimeConstant := smoothing |}.
Proof.
  intros Hm Hc. cbv zeta. rewrite presses_cons.
  destruct (toggle_builds_graph smoothing outcome w Hm Hc)
    as (Hc1 & Hs1 & _ & Hn1).
  pose proof (first_toggle_analyser smoothing outcome w Hm Hc) as Ha1.
  destruct (presses_keep_graph smoothing later _ _ Hc1)
    as (Hc2 & Ha2 & Hs2 & Hn2).
  rewrite Hn2, Hc2, Hs2, Ha2, Hn1, Hs1, Ha1. repeat split.
Qed.

Lemma graph_built_once_witness :
  contexts
    (FileApp.browser
       (exec (FileApp.presses 0.8 [Resolved; Resolved; Rejected; Resolved])
          (FileApp.mkWorld (Some "blob:track"%string) false None true None
             None None freshBrowser)))
  = 1%nat.
Proof.
  destruct (graph_built_once 0.8 Resolved [Resolved; Rejected; Resolved]
              (FileApp.mkWorld (Some "blob:track"%string) false None true
                 None None None freshBrowser) eq_refl eq_refl)
    as (Hn & _).
  exact Hn.
Defined.

(** From the first render to sound: a valid upload followed by a press
    builds the graph, whatever the play attempt does. *)
Lemma upload_then_press (smoothing : R) (file : FileApp.File)
    (url : string) (outcome : Outcome) :
  String.prefix "audio/" (FileApp.type file) = true ->
  let uploaded :=
    exec (FileApp.handleFileUpload (Some file) url) FileApp.initial in
  let pressed :=
    exec (FileApp.togglePlayback smoothing outcome) uploaded in
  FileApp.audioRef uploaded = true /\
  FileApp.audioContextRef pressed = Some 0%nat /\
  FileApp.analyserRef pressed
  = Some {| fftSize := 256; smoothingTimeConstant := smoothing |}.
Proof.
  intros Hok. cbv zeta.
  assert (Hup : exec (FileApp.handleFileUpload (Some file) url)
                  FileApp.initial
                = FileApp.setAudioRef true
                    (FileApp.setIsPlaying false
                       (FileApp.setError None
                          (FileApp.setAudioFile (Some url)
                             (FileApp.setBrowser
                                (logCall CreateObjectURL freshBrowser)
                                FileApp.initial))))).
  { run_handler. unfold FileApp.rejected. rewrite Hok. cbn.
    reflexivity. }
  rewrite Hup. split; [reflexivity|]. split.
  - apply (toggle_builds_graph smoothing outcome); reflexivity.
  - apply first_toggle_analyser; reflexivity.
Qed.

Lemma toggle_error (smoothing : R) (outcome : Outcome)
    (w : FileApp.World) :
  let w' := exec (FileApp.togglePlayback smoothing outcome) w in
  FileApp.error w' = FileApp.error w \/
  FileApp.error w' = Some FileApp.playbackFailedMessage.
Proof.
  run_handler. destruct (FileApp.audioRef w); cbn; [|left; reflexivity].
  destruct (FileApp.audioContextRef w); cbn;
    destruct (FileApp.isPlaying w), outcome; cbn;
    first [left; reflexivity | right; reflexivity].
Qed.

(** X13. Play and pause never remove a message: once an error is shown,
    it stays shown through any series of presses, successful or not.
    Only [handleFileUpload] with a valid file resets it. *)
Theorem presses_keep_message (smoothing : R) (outcomes : list Outcome)
    (w : FileApp.World) :
  FileApp.error w <> None ->
  FileApp.error (exec (FileApp.presses smoothing outcomes) w) <> None.
Proof.
  revert w. induction outcomes as [|outcome later IH]; intros w Herr.
  - exact Herr.
  - rewrite presses_cons. apply IH.
    destruct (toggle_error smoothing outcome w) as [-> | ->];
      [exact Herr | discriminate].
Qed.

Lemma presses_keep_message_witness :
  FileApp.error
    (exec (FileApp.presses 0.85 [Resolved; Resolved])
       (exec (FileApp.togglePlayback 0.85 Rejected)
          (FileApp.mkWorld (Some "blob:track"%string) false None true None
             None None freshBrowser)))
  <> None.
Proof.
  apply (presses_keep_message 0.85 [Resolved; Resolved]
           (exec (FileApp.togglePlayback 0.85 Rejected)
              (FileApp.mkWorld (Some "blob:track"%string) false None true
                 None None None freshBrowser))).
  discriminate.
Defined.

(** One press on a mounted element: what it calls and what it leaves. *)
Lemma toggle_step (smoothing : R) (outcome : Outcome) (w : FileApp.World) :
  FileApp.audioRef w = true ->
  let w' := exec (FileApp.togglePlayback smoothing outcome) w in
  let c := contexts (FileApp.browser w) in
  FileApp.audioRef w' = true /\
  FileApp.audioFile w' = FileApp.audioFile w /\
  (exists c', FileApp.audioContextRef w' = Some c') /\
  FileApp.isPlaying w'
  = (if FileApp.isPlaying w then false
     else match outcome with Resolved => true | Rejected => false end) /\
  FileApp.error w'
  = (if FileApp.isPlaying w then FileApp.error w
     else match outcome with
          | Resolved => FileApp.error w
          | Rejected => Some FileApp.playbackFailedMessage
          end) /\
  calls (FileApp.browser w')
  = calls (FileApp.browser w)
    ++ match FileApp.audioContextRef w with
       | Some _ => []
       | None => [NewAudioContext c; CreateAnalyser c;
                  CreateMediaElementSource c; Connect; Connect]
       end
    ++ (if FileApp.isPlaying w then [Pause]
        else match outcome with
             | Resolved => [Play]
             | Rejected => [Play; ConsoleError]
             end).
Proof.
  intros Hm. run_handler. rewrite Hm. cbn.
  destruct (FileApp.audioContextRef w) as [c0|] eqn:Hc; cbn;
    destruct (FileApp.isPlaying w) eqn:Hp, outcome; cbn;
    rewrite ?Hp, ?Hc; cbn; rewrite <- ?app_assoc; cbn [app];
    repeat split; try exact Hm; eexists; reflexivity.
Qed.

(** X14. A play that fails and is tried again with success ends up
    playing, with the failure message of the first attempt still on
    display. *)
Theorem retry_leaves_stale_message (smoothing : R) (w : FileApp.World) :
  FileApp.audioRef w = true -> FileApp.isPlaying w = false ->
  let w' := exec (FileApp.presses smoothing [Rejected; Resolved]) w in
  FileApp.isPlaying w' = true /\
  FileApp.error w' = Some FileApp.playbackFailedMessage.
Proof.
  intros Hm Hp. cbv zeta. rewrite !presses_cons.
  destruct (toggle_step smoothing Rejected w Hm)
    as (Hm1 & _ & _ & Hp1 & He1 & _).
  rewrite Hp in Hp1, He1.
  destruct (toggle_step smoothing Resolved _ Hm1)
    as (_ & _ & _ & Hp2 & He2 & _).
  rewrite Hp1 in Hp2, He2. rewrite He1 in He2.
  split; [exact Hp2 | exact He2].
Qed.

Lemma retry_leaves_stale_message_witness :
  FileApp.isPlaying
    (exec (FileApp.presses 0.8 [Rejected; Resolved])
       (FileApp.mkWorld (Some "blob:track"%string) false None true None
          None None freshBrowser))
  = true.
Proof.
  destruct (retry_leaves_stale_message 0.8
              (FileApp.mkWorld (Some "blob:track"%string) false None true
                 None None None freshBrowser) eq_refl eq_refl) as [H _].
  exact H.
Defined.



(** X16. On a mounted element whose graph is not built yet, pressing play
    has no effect on the bars before it happens and enables them
    afterwards, even when the playback attempt is rejected: without
    analyser [useFrame] draws nothing, and after the first press every
    frame on a snapshot of the analyser is a full set of 64 defined bars,
    in both variants. *)
Theorem bars_start_with_first_press (outcome : Outcome)
    (w : FileApp.World) (zFormula : string) (clock : Z -> R)
    (spectrum : Uint8Array) :
  FileApp.audioRef w = true -> FileApp.audioContextRef w = None ->
  FileApp.analyserRef w = None -> arrayLength spectrum = 128%Z ->
  let w3 := exec (Bars3D.togglePlayback outcome) w in
  let wz := exec (BarsZ.togglePlayback outcome) w in
  Bars3D.useFrame (FileApp.analyserRef w) true spectrum = None /\
  BarsZ.useFrame (FileApp.analyserRef w) true zFormula clock spectrum
  = None /\
  option_map frequencyBinCount (FileApp.analyserRef w3) = Some 128%Z /\
  option_map frequencyBinCount (FileApp.analyserRef wz) = Some 128%Z /\
  Bars3D.useFrame (FileApp.analyserRef w3) true spectrum
  = Some (Bars3D.frame spectrum) /\
  BarsZ.useFrame (FileApp.analyserRef wz) true zFormula clock spectrum
  = Some (BarsZ.frame zFormula clock spectrum) /\
  Forall (fun bar => bar <> None) (Bars3D.frame spectrum) /\
  Forall (fun bar => bar <> None) (BarsZ.frame zFormula clock spectrum).
Proof.
  intros Hm Hc Ha Hlen w3 wz. subst w3 wz.
  unfold Bars3D.togglePlayback, BarsZ.togglePlayback.
  rewrite !(first_toggle_analyser _ outcome w Hm Hc), Ha.
  destruct (frames_complete zFormula clock spectrum Hlen)
    as (_ & _ & H3 & Hz).
  repeat split; assumption.
Qed.

Lemma bars_start_with_first_press_witness :
  Bars3D.useFrame
    (FileApp.analyserRef
       (exec (Bars3D.togglePlayback Rejected)
          (FileApp.mkWorld (Some "blob:track"%string) false None true None
             None None freshBrowser)))
    true (repeat Byte.x00 128)
  = Some (Bars3D.frame (repeat Byte.x00 128)).
Proof.
  destruct (bars_start_with_first_press Rejected
              (FileApp.mkWorld (Some "blob:track"%string) false None true
                 None None None freshBrowser)
              "none" (fun _ => 0) (repeat Byte.x00 128)
              eq_refl eq_refl eq_refl eq_refl)
    as (_ & _ & _ & _ & H & _).
  exact H.
Defined.

(** Without a mounted audio element the play button does nothing at
    all, however often it is pressed: no state changes, no browser call,
    no audio graph. *)
Theorem presses_without_element (smoothing : R) (outcomes : list Outcome)
    (w : FileApp.World) :
  FileApp.audioRef w = false ->
  exec (FileApp.presses smoothing outcomes) w = w.
Proof.
  intros Hm. induction outcomes as [|outcome later IH]; [reflexivity|].
  rewrite presses_cons.
  assert (Hstep : exec (FileApp.togglePlayback smoothing outcome) w = w).
  { run_handler. rewrite Hm. reflexivity. }
  rewrite Hstep. exact IH.
Qed.

Lemma presses_without_element_witness :
  exec (FileApp.presses 0.8 [Resolved; Rejected]) FileApp.initial
  = FileApp.initial.
Proof.
  apply (presses_without_element 0.8 [Resolved; Rejected] FileApp.initial).
  reflexivity.
Defined.

(** ** The microphone session *)

Lemma start_resolved_completes (w : Mic2D.World) :
  fst (Mic2D.startVisualizer Resolved w) = Normal tt.
Proof. run_handler. cbn. reflexivity. Qed.

Lemma start_rejected_completes (w : Mic2D.World) :
  fst (Mic2D.startVisualizer Rejected w) = Normal tt.
Proof. run_handler. cbn. reflexivity. Qed.

Lemma stop_completes (w : Mic2D.World) :
  fst (Mic2D.stopVisualizer w) = Normal tt.
Proof.
  destruct (stop_completes_idle w) as [[[] H] _]. exact H.
Qed.

Lemma fresh_not_closed (b : Browser) :
  Forall (fun c => (c < contexts b)%nat) (closed b) ->
  isClosed (contexts b) b = false.
Proof.
  unfold isClosed. intros Hwf.
  destruct (existsb (Nat.eqb (contexts b)) (closed b)) eqn:E; [|reflexivity].
  apply existsb_exists in E. destruct E as (c & Hin & Heq).
  apply Nat.eqb_eq in Heq. rewrite Forall_forall in Hwf.
  specialize (Hwf c Hin). lia.
Qed.

(** One session from a quiet browser. *)
Lemma session_step (w : Mic2D.World) :
  pending (Mic2D.browser w) = [] ->
  isClosed (contexts (Mic2D.browser w)) (Mic2D.browser w) = false ->
  let w' := exec Mic2D.stopVisualizer (exec (Mic2D.startVisualizer Resolved) w) in
  let c := contexts (Mic2D.browser w) in
  Mic2D.isVisualizing w' = false /\
  Mic2D.error w' = None /\
  contexts (Mic2D.browser w') = S c /\
  closed (Mic2D.browser w') = closed (Mic2D.browser w) ++ [c] /\
  rejections (Mic2D.browser w') = rejections (Mic2D.browser w) /\
  pending (Mic2D.browser w') = [] /\
  lastFrame (Mic2D.browser w') = S (lastFrame (Mic2D.browser w)).
Proof.
  intros Hp Hfresh. run_handler. cbn. unfold isClosed in *.
  cbn [closed]. rewrite Hp, Hfresh. cbn. rewrite Nat.eqb_refl.
  repeat split.
Qed.

Lemma exec_bind {W A B : Type} (m : M W A) (k : A -> M W B) (w : W)
    (a : A) :
  fst (m w) = Normal a -> exec (bind m k) w = exec (k a) (exec m w).
Proof.
  unfold exec, bind. destruct (m w) as [r w']. cbn. intros ->.
  reflexivity.
Qed.

Lemma sessions_succ (n : nat) (w : Mic2D.World) :
  exec (Mic2D.sessions (S n)) w
  = exec (Mic2D.sessions n)
      (exec Mic2D.stopVisualizer (exec (Mic2D.startVisualizer Resolved) w)).
Proof.
  cbn [Mic2D.sessions].
  rewrite (exec_bind _ _ w tt (start_resolved_completes w)).
  rewrite (exec_bind _ _ _ tt (stop_completes _)).
  reflexivity.
Qed.

(** X17. Start and stop can alternate any number of times: after n
    sessions n new audio contexts exist, each has been closed, no
    [close()] was rejected, no frame callback is left, and n frame
    handles were used. *)
Theorem sessions_release_everything (n : nat) (w : Mic2D.World) :
  pending (Mic2D.browser w) = [] ->
  Forall (fun c => (c < contexts (Mic2D.browser w))%nat)
    (closed (Mic2D.browser w)) ->
  let w' := exec (Mic2D.sessions n) w in
  contexts (Mic2D.browser w') = (contexts (Mic2D.browser w) + n)%nat /\
  closed (Mic2D.browser w')
  = closed (Mic2D.browser w) ++ seq (contexts (Mic2D.browser w)) n /\
  rejections (Mic2D.browser w') = rejections (Mic2D.browser w) /\
  pending (Mic2D.browser w') = [] /\
  lastFrame (Mic2D.browser w') = (lastFrame (Mic2D.browser w) + n)%nat.
Proof.
  revert w. induction n as [|n IH]; intros w Hp Hwf.
  - cbn. rewrite Nat.add_0_r, app_nil_r, Nat.add_0_r. repeat split.
    exact Hp.
  - cbv zeta. rewrite sessions_succ.
    destruct (session_step w Hp (fresh_not_closed _ Hwf))
      as (_ & _ & Hn & Hcl & Hrej & Hpend & Hlast).
    set (w1 := exec Mic2D.stopVisualizer
                 (exec (Mic2D.startVisualizer Resolved) w)) in *.
    assert (Hwf1 : Forall (fun c => (c < contexts (Mic2D.browser w1))%nat)
                     (closed (Mic2D.browser w1))).
    { rewrite Hn, Hcl. apply Forall_app. split.
      - eapply Forall_impl; [|exact Hwf]. cbn. intros c Hc. lia.
      - constructor; [lia | constructor]. }
    destruct (IH w1 Hpend Hwf1) as (Hn' & Hcl' & Hrej' & Hpend' & Hlast').
    rewrite Hn', Hcl', Hrej', Hpend', Hlast', Hn, Hcl, Hrej, Hlast.
    cbn [seq]. rewrite <- app_assoc. cbn [app].
    repeat split; lia.
Qed.

Lemma sessions_release_everything_witness :
  rejections (Mic2D.browser (exec (Mic2D.sessions 3) Mic2D.initial)) = [] /\
  pending (Mic2D.browser (exec (Mic2D.sessions 3) Mic2D.initial)) = [].
Proof.
  destruct (sessions_release_everything 3 Mic2D.initial eq_refl
              (Forall_nil _)) as (_ & _ & Hr & Hp & _).
  split; [exact Hr | exact Hp].
Defined.

(** What a granted start does to the browser and the refs. *)
Lemma start_step (w : Mic2D.World) :
  let w' := exec (Mic2D.startVisualizer Resolved) w in
  let b := Mic2D.browser w in
  let c := contexts b in
  let f := S (lastFrame b) in
  Mic2D.isVisualizing w' = true /\
  Mic2D.audioContextRef w' = Some c /\
  Mic2D.animationFrameRef w' = Some f /\
  contexts (Mic2D.browser w') = S c /\
  closed (Mic2D.browser w') = closed b /\
  rejections (Mic2D.browser w') = rejections b /\
  lastFrame (Mic2D.browser w') = f /\
  pending (Mic2D.browser w') = pending b ++ [f] /\
  calls (Mic2D.browser w')
  = calls b ++ [GetUserMedia; NewAudioContext c; CreateMediaStreamSource c;
                CreateAnalyser c; Connect; RequestAnimationFrame f].
Proof.
  run_handler. cbn. rewrite <- !app_assoc. repeat split.
Qed.

(** What a stop does when both refs are set. *)
Lemma stop_step (w : Mic2D.World) (c f : nat) :
  Mic2D.audioContextRef w = Some c ->
  Mic2D.animationFrameRef w = Some (S f) ->
  let w' := exec Mic2D.stopVisualizer w in
  let b := Mic2D.browser w in
  Mic2D.isVisualizing w' = false /\
  contexts (Mic2D.browser w') = contexts b /\
  closed (Mic2D.browser w')
  = (if isClosed c b then closed b else closed b ++ [c]) /\
  rejections (Mic2D.browser w')
  = (if isClosed c b then rejections b ++ [c] else rejections b) /\
  lastFrame (Mic2D.browser w') = lastFrame b /\
  pending (Mic2D.browser w')
  = filter (fun g => negb (Nat.eqb g (S f))) (pending b) /\
  calls (Mic2D.browser w')
  = calls b ++ [CancelAnimationFrame (S f); CloseContext c].
Proof.
  intros Hc Hf. run_handler. rewrite Hf. cbn. rewrite Hc. cbn.
  rewrite <- !app_assoc. repeat split.
Qed.

(** What a display refresh does when one callback is scheduled. *)
Lemma refresh_step (w : Mic2D.World) (f : nat) :
  pending (Mic2D.browser w) = [f] ->
  let w' := exec Mic2D.animationFrame w in
  let g := S (lastFrame (Mic2D.browser w)) in
  fst (Mic2D.animationFrame w) = Normal tt /\
  pending (Mic2D.browser w') = [g] /\
  Mic2D.animationFrameRef w' = Some g /\
  lastFrame (Mic2D.browser w') = g /\
  Mic2D.isVisualizing w' = Mic2D.isVisualizing w /\
  Mic2D.audioContextRef w' = Mic2D.audioContextRef w /\
  closed (Mic2D.browser w') = closed (Mic2D.browser w) /\
  rejections (Mic2D.browser w') = rejections (Mic2D.browser w).
Proof.
  intros Hp. unfold exec, Mic2D.animationFrame. rewrite Hp.
  run_handler. cbn. repeat split.
Qed.

(** X18. Nothing in [startVisualizer] stops it from running twice with
    no stop in between.  Then the one stop that follows closes only the
    second audio context and cancels only the second frame callback: the
    first context stays open for good, the first callback stays
    scheduled, and at the next display refresh the drawing loop re-arms
    itself although the visualizer counts as stopped. *)
Theorem second_start_leaks (w : Mic2D.World) :
  pending (Mic2D.browser w) = [] ->
  isClosed (contexts (Mic2D.browser w)) (Mic2D.browser w) = false ->
  let c := contexts (Mic2D.browser w) in
  let f := S (lastFrame (Mic2D.browser w)) in
  let twice :=
    exec (Mic2D.startVisualizer Resolved)
      (exec (Mic2D.startVisualizer Resolved) w) in
  let stopped := exec Mic2D.stopVisualizer twice in
  let later := exec Mic2D.animationFrame stopped in
  Mic2D.audioContextRef twice = Some (S c) /\
  pending (Mic2D.browser twice) = [f; S f] /\
  Mic2D.isVisualizing stopped = false /\
  isClosed c (Mic2D.browser stopped) = false /\
  closeCalls c (Mic2D.browser stopped) = closeCalls c (Mic2D.browser w) /\
  closeCalls (S c) (Mic2D.browser stopped)
  = S (closeCalls (S c) (Mic2D.browser w)) /\
  pending (Mic2D.browser stopped) = [f] /\
  pending (Mic2D.browser later) = [S (S f)] /\
  Mic2D.animationFrameRef later = Some (S (S f)).
Proof.
  intros Hp Hfresh. cbv zeta.
  destruct (start_step w)
    as (_ & _ & _ & Hn1 & Hcl1 & _ & Hl1 & Hp1 & Hcalls1).
  set (once := exec (Mic2D.startVisualizer Resolved) w) in *.
  destruct (start_step once)
    as (_ & Hc2 & Hf2 & _ & Hcl2 & _ & Hl2 & Hp2 & Hcalls2).
  set (twice := exec (Mic2D.startVisualizer Resolved) once) in *.
  rewrite Hn1 in Hc2. rewrite Hl1 in Hf2, Hl2, Hp2.
  rewrite Hp1, Hp in Hp2. rewrite Hcl1 in Hcl2.
  rewrite Hcalls1, Hn1, Hl1 in Hcalls2. cbn [app] in Hp2.
  destruct (stop_step twice _ _ Hc2 Hf2)
    as (Hv3 & _ & Hcl3 & _ & Hl3 & Hp3 & Hcalls3).
  set (stopped := exec Mic2D.stopVisualizer twice) in *.
  set (c := contexts (Mic2D.browser w)) in *.
  rewrite Hp2 in Hp3. rewrite Hcalls2 in Hcalls3. rewrite Hl2 in Hl3.
  cbn [filter] in Hp3. rewrite Nat.eqb_refl in Hp3.
  replace (S (lastFrame (Mic2D.browser w))
             =? S (S (lastFrame (Mic2D.browser w))))%nat
    with false in Hp3 by (symmetry; apply Nat.eqb_neq; lia).
  cbn [negb] in Hp3.
  assert (Hclosed3 : isClosed c (Mic2D.browser stopped) = false).
  { unfold isClosed in *. rewrite Hcl3, Hcl2.
    destruct (existsb (Nat.eqb (S c)) (closed (Mic2D.browser w)));
      [exact Hfresh|].
    rewrite existsb_app, Hfresh. cbn.
    replace (c =? S c)%nat with false
      by (symmetry; apply Nat.eqb_neq; lia).
    reflexivity. }
  assert (Hcount : forall k,
            closeCalls k (Mic2D.browser stopped)
            = (closeCalls k (Mic2D.browser w)
               + (if Nat.eqb k (S c) then 1 else 0))%nat).
  { intros k. unfold closeCalls. rewrite Hcalls3, <- app_assoc.
    rewrite !count_occ_app. cbn [count_occ].
    repeat match goal with
    | |- context [Call_eq_dec ?a (CloseContext k)] =>
        lazymatch a with
        | CloseContext _ => fail
        | _ => destruct (Call_eq_dec a (CloseContext k)) as [Heq|_];
               [discriminate Heq|]
        end
    end.
    destruct (Call_eq_dec (CloseContext (S c)) (CloseContext k))
      as [Heq|Hne].
    - injection Heq as <-. rewrite Nat.eqb_refl. lia.
    - destruct (Nat.eqb_spec k (S c)) as [->|_]; [|lia].
      exfalso. apply Hne. reflexivity. }
  repeat split; try assumption.
  - rewrite Hcount.
    replace (c =? S c)%nat with false
      by (symmetry; apply Nat.eqb_neq; lia). lia.
  - rewrite Hcount, Nat.eqb_refl. lia.
  - destruct (refresh_step stopped _ Hp3) as (_ & H & _).
    rewrite H, Hl3. reflexivity.
  - destruct (refresh_step stopped _ Hp3) as (_ & _ & H & _).
    rewrite H, Hl3. reflexivity.
Qed.

Lemma second_start_leaks_witness :
  pending
    (Mic2D.browser
       (exec Mic2D.stopVisualizer
          (exec (Mic2D.startVisualizer Resolved)
             (exec (Mic2D.startVisualizer Resolved) Mic2D.initial))))
  = [1%nat].
Proof.
  destruct (second_start_leaks Mic2D.initial eq_refl eq_refl)
    as (_ & _ & _ & _ & _ & _ & H & _).
  exact H.
Defined.

Lemma refresh_completes (w : Mic2D.World) :
  fst (Mic2D.animationFrame w) = Normal tt.
Proof.
  destruct (pending (Mic2D.browser w)) as [|f rest] eqn:Hp.
  - rewrite frame_loop_stopped by exact Hp. reflexivity.
  - unfold Mic2D.animationFrame. rewrite Hp. run_handler. reflexivity.
Qed.

Lemma refreshes_succ (n : nat) (w : Mic2D.World) :
  exec (Mic2D.refreshes (S n)) w
  = exec (Mic2D.refreshes n) (exec Mic2D.animationFrame w).
Proof.
  cbn [Mic2D.refreshes].
  rewrite (exec_bind _ _ w tt (refresh_completes w)). reflexivity.
Qed.

Lemma refreshes_running (n : nat) :
  forall w : Mic2D.World,
    pending (Mic2D.browser w) = [lastFrame (Mic2D.browser w)] ->
    Mic2D.animationFrameRef w = Some (lastFrame (Mic2D.browser w)) ->
    let w' := exec (Mic2D.refreshes n) w in
    lastFrame (Mic2D.browser w') = (lastFrame (Mic2D.browser w) + n)%nat /\
    pending (Mic2D.browser w') = [lastFrame (Mic2D.browser w')] /\
    Mic2D.animationFrameRef w' = Some (lastFrame (Mic2D.browser w')) /\
    Mic2D.isVisualizing w' = Mic2D.isVisualizing w /\
    Mic2D.audioContextRef w' = Mic2D.audioContextRef w /\
    rejections (Mic2D.browser w') = rejections (Mic2D.browser w).
Proof.
  induction n as [|n IH]; intros w Hp Hf.
  - cbn. rewrite Nat.add_0_r. repeat split; assumption.
  - cbv zeta. rewrite refreshes_succ.
    destruct (refresh_step w _ Hp)
      as (_ & Hp1 & Hf1 & Hl1 & Hv1 & Hc1 & _ & Hr1).
    rewrite <- Hl1 in Hp1, Hf1.
    destruct (IH _ Hp1 Hf1) as (Hl & Hp' & Hf' & Hv & Hc & Hr).
    rewrite Hl, Hl1 in *. rewrite Hv, Hc, Hr, Hv1, Hc1, Hr1.
    repeat split; try assumption. lia.
Qed.

Lemma refreshes_idle (m : nat) (w : Mic2D.World) :
  pending (Mic2D.browser w) = [] -> exec (Mic2D.refreshes m) w = w.
Proof.
  intros Hp. induction m as [|m IH]; [reflexivity|].
  rewrite refreshes_succ. unfold exec at 2.
  rewrite frame_loop_stopped by exact Hp. exact IH.
Qed.

(** X19. While the visualizer runs there is always exactly one frame
    callback scheduled, the one whose handle is in the ref: after a
    granted start and any number n of display refreshes the pending
    callback is number n + 1 since the start.  A stop at that point
    cancels it, and from then on refreshes change nothing: the drawing
    loop has ended. *)
Theorem frame_loop_single_callback (n m : nat) (w : Mic2D.World) :
  pending (Mic2D.browser w) = [] ->
  let running :=
    exec (Mic2D.refreshes n) (exec (Mic2D.startVisualizer Resolved) w) in
  let stopped := exec Mic2D.stopVisualizer running in
  let g := S (lastFrame (Mic2D.browser w) + n) in
  pending (Mic2D.browser running) = [g] /\
  Mic2D.animationFrameRef running = Some g /\
  Mic2D.isVisualizing running = true /\
  pending (Mic2D.browser stopped) = [] /\
  exec (Mic2D.refreshes m) stopped = stopped.
Proof.
  intros Hp. cbv zeta.
  destruct (start_step w)
    as (Hv0 & Hc0 & Hf0 & _ & _ & _ & Hl0 & Hp0 & _).
  rewrite Hp in Hp0. cbn [app] in Hp0. rewrite <- Hl0 in Hp0, Hf0.
  destruct (refreshes_running n _ Hp0 Hf0)
    as (Hl & Hp1 & Hf1 & Hv1 & Hc1 & _).
  rewrite Hl, Hl0 in Hp1, Hf1. cbn [Nat.add] in Hp1, Hf1.
  rewrite Hv0 in Hv1. rewrite Hc0 in Hc1.
  destruct (stop_step _ _ _ Hc1 Hf1) as (_ & _ & _ & _ & _ & Hp2 & _).
  rewrite Hp1 in Hp2. cbn [filter] in Hp2.
  rewrite Nat.eqb_refl in Hp2. cbn [negb] in Hp2.
  repeat split; try assumption.
  apply refreshes_idle. exact Hp2.
Qed.

Lemma frame_loop_single_callback_witness :
  pending
    (Mic2D.browser
       (exec (Mic2D.refreshes 5)
          (exec (Mic2D.startVisualizer Resolved) Mic2D.initial)))
  = [6%nat].
Proof.
  destruct (frame_loop_single_callback 5 2 Mic2D.initial eq_refl)
    as (H & _).
  exact H.
Defined.

(** X20. A denied microphone costs nothing and does not get in the way:
    the failed start constructs no audio context and schedules no
    callback, and a granted start after it clears the message and
    visualizes. *)
Theorem start_after_denial (w : Mic2D.World) :
  let denied := exec (Mic2D.startVisualizer Rejected) w in
  let granted := exec (Mic2D.startVisualizer Resolved) denied in
  contexts (Mic2D.browser denied) = contexts (Mic2D.browser w) /\
  pending (Mic2D.browser denied) = pending (Mic2D.browser w) /\
  Mic2D.analyserRef denied = Mic2D.analyserRef w /\
  Mic2D.animationFrameRef denied = Mic2D.animationFrameRef w /\
  Mic2D.error denied = Some Mic2D.microphoneMessage /\
  Mic2D.error granted = None /\
  Mic2D.isVisualizing granted = true /\
  Mic2D.audioContextRef granted = Some (contexts (Mic2D.browser w)).
Proof. run_handler. cbn. repeat split. Qed.

(** ** The 2D spectrum *)

Lemma paintFrom_length (cw ch : R) (N : Z) (samples : Uint8Array) :
  forall (i : Z) (x : R),
    List.length (Mic2D.paintFrom cw ch N i x samples) = List.length samples.
Proof.
  induction samples as [|b samples IH]; intros i x; [reflexivity|].
  cbn [Mic2D.paintFrom List.length]. rewrite IH. reflexivity.
Qed.

Lemma paintFrom_nth (cw ch : R) (N : Z) (samples : Uint8Array) :
  forall (i : Z) (x : R) (k : nat) (b : Byte.byte),
    nth_error samples k = Some b ->
    exists r,
      nth_error (Mic2D.paintFrom cw ch N i x samples) k = Some r /\
      Mic2D.hueOf r = Mic2D.hue N (i + Z.of_nat k) /\
      Mic2D.lightnessOf r
      = Mic2D.lightness ch (Mic2D.barHeight ch (byteValue b)) /\
      Mic2D.rectX r = x + INR k * (Mic2D.barWidth cw N + 1) /\
      Mic2D.rectY r = ch - Mic2D.barHeight ch (byteValue b) /\
      Mic2D.rectW r = Mic2D.barWidth cw N /\
      Mic2D.rectH r = Mic2D.barHeight ch (byteValue b).
Proof.
  induction samples as [|b0 samples IH]; intros i x k b Hk.
  - destruct k; discriminate Hk.
  - destruct k as [|k].
    + injection Hk as ->. eexists. split; [reflexivity|].
      cbn. rewrite Z.add_0_r. repeat split. lra.
    + cbn [nth_error] in Hk. cbn [Mic2D.paintFrom nth_error].
      destruct (IH (i + 1)%Z (x + (Mic2D.barWidth cw N + 1)) k b Hk)
        as (r & Hr & Hh & Hl & Hx & Hy & Hw & Ht).
      exists r. split; [exact Hr|].
      rewrite Hh, Hl, Hx, Hy, Hw, Ht, S_INR.
      replace (i + 1 + Z.of_nat k)%Z with (i + Z.of_nat (S k))%Z by lia.
      repeat split. lra.
Qed.

(** X21. [draw] paints one rectangle per bin.  The k-th one starts at
    x = k (barWidth + 1), is barWidth wide, ends on the bottom edge of
    the canvas, and carries the hue of bar k. *)
Theorem paint_layout (cw ch : R) (dataArray : Uint8Array) (k : nat)
    (b : Byte.byte) :
  nth_error dataArray k = Some b ->
  let N := arrayLength dataArray in
  List.length (Mic2D.paint cw ch dataArray) = List.length dataArray /\
  exists r,
    nth_error (Mic2D.paint cw ch dataArray) k = Some r /\
    Mic2D.rectX r = INR k * (Mic2D.barWidth cw N + 1) /\
    Mic2D.rectW r = Mic2D.barWidth cw N /\
    Mic2D.rectY r + Mic2D.rectH r = ch /\
    Mic2D.rectH r = byteValue b * (ch / 255) /\
    Mic2D.hueOf r = Mic2D.hue N (Z.of_nat k).
Proof.
  intros Hk N. unfold Mic2D.paint. split; [apply paintFrom_length|].
  destruct (paintFrom_nth cw ch N dataArray 0 0 k b Hk)
    as (r & Hr & Hh & _ & Hx & Hy & Hw & Ht).
  exists r. split; [exact Hr|].
  rewrite Hx, Hw, Hy, Ht, Hh. unfold Mic2D.barHeight.
  repeat split; lra.
Qed.

Lemma paint_layout_witness :
  List.length (Mic2D.paint 800 400 (repeat Byte.x80 128))
  = List.length (repeat Byte.x80 128).
Proof.
  destruct (paint_layout 800 400 (repeat Byte.x80 128) 3 Byte.x80 eq_refl)
    as [H _].
  exact H.
Defined.

(** X22. On a canvas of positive height no rectangle has a negative
    height, a top below the bottom edge or a lightness under 50, and a
    louder bin is never drawn shorter, lower or darker than a quieter
    one. *)
Theorem paint_louder_taller_lighter (cw ch : R) (dataArray : Uint8Array)
    (k1 k2 : nat) (b1 b2 : Byte.byte) :
  0 < ch ->
  nth_error dataArray k1 = Some b1 -> nth_error dataArray k2 = Some b2 ->
  (Byte.to_N b1 <= Byte.to_N b2)%N ->
  exists r1 r2,
    nth_error (Mic2D.paint cw ch dataArray) k1 = Some r1 /\
    nth_error (Mic2D.paint cw ch dataArray) k2 = Some r2 /\
    0 <= Mic2D.rectH r1 /\
    Mic2D.rectH r1 <= Mic2D.rectH r2 /\
    Mic2D.rectY r2 <= Mic2D.rectY r1 /\
    Mic2D.rectY r1 <= ch /\
    50 <= Mic2D.lightnessOf r1 /\
    Mic2D.lightnessOf r1 <= Mic2D.lightnessOf r2.
Proof.
  intros Hch Hk1 Hk2 Hle. unfold Mic2D.paint.
  set (N := arrayLength dataArray).
  destruct (paintFrom_nth cw ch N dataArray 0 0 k1 b1 Hk1)
    as (r1 & Hr1 & _ & Hl1 & _ & Hy1 & _ & Ht1).
  destruct (paintFrom_nth cw ch N dataArray 0 0 k2 b2 Hk2)
    as (r2 & Hr2 & _ & Hl2 & _ & Hy2 & _ & Ht2).
  exists r1, r2. split; [exact Hr1|]. split; [exact Hr2|].
  rewrite Hl1, Hl2, Hy1, Hy2, Ht1, Ht2.
  pose proof (byteValue_range b1) as [H0 _].
  assert (H12 : byteValue b1 <= byteValue b2).
  { unfold byteValue. apply IZR_le. lia. }
  assert (Hunit : 0 < ch / 255).
  { apply Rdiv_lt_0_compat; lra. }
  assert (Hinv : 0 < / ch) by (apply Rinv_0_lt_compat; exact Hch).
  unfold Mic2D.lightness, Mic2D.barHeight, Rdiv.
  assert (Hh1 : 0 <= byteValue b1 * (ch * / 255)).
  { apply Rmult_le_pos; [exact H0 | apply Rlt_le; exact Hunit]. }
  assert (Hh12 : byteValue b1 * (ch * / 255) <= byteValue b2 * (ch * / 255)).
  { apply Rmult_le_compat_r; [apply Rlt_le; exact Hunit | exact H12]. }
  assert (Hq1 : 0 <= byteValue b1 * (ch * / 255) * / ch).
  { apply Rmult_le_pos; [exact Hh1 | apply Rlt_le; exact Hinv]. }
  assert (Hq12 : byteValue b1 * (ch * / 255) * / ch
                 <= byteValue b2 * (ch * / 255) * / ch).
  { apply Rmult_le_compat_r; [apply Rlt_le; exact Hinv | exact Hh12]. }
  repeat split; lra.
Qed.

Lemma paint_louder_taller_lighter_witness :
  exists r1 r2,
    nth_error (Mic2D.paint 800 400 quietSnapshot) 2 = Some r1 /\
    nth_error (Mic2D.paint 800 400 quietSnapshot) 0 = Some r2 /\
    Mic2D.rectH r1 <= Mic2D.rectH r2 /\
    Mic2D.lightnessOf r1 <= Mic2D.lightnessOf r2.
Proof.
  destruct (paint_louder_taller_lighter 800 400 quietSnapshot 2 0
              Byte.x00 Byte.xff ltac:(lra) eq_refl eq_refl
              ltac:(vm_compute; discriminate))
    as (r1 & r2 & H1 & H2 & _ & Hh & _ & _ & _ & Hl).
  exists r1, r2. repeat split; assumption.
Defined.

(** X23. The bars are 2.5 times too wide for the canvas: on a canvas of
    positive width every bin from two fifths of the buffer on is painted
    at or beyond the right edge, so at most the lowest 40 percent of the
    bins are visible. *)
Theorem high_bins_off_canvas (cw ch : R) (dataArray : Uint8Array)
    (k : nat) (b : Byte.byte) :
  0 < cw -> nth_error dataArray k = Some b ->
  (2 * arrayLength dataArray <= 5 * Z.of_nat k)%Z ->
  exists r,
    nth_error (Mic2D.paint cw ch dataArray) k = Some r /\
    cw <= Mic2D.rectX r.
Proof.
  intros Hcw Hk Hhigh. unfold Mic2D.paint.
  set (N := arrayLength dataArray) in *.
  destruct (paintFrom_nth cw ch N dataArray 0 0 k b Hk)
    as (r & Hr & _ & _ & Hx & _).
  exists r. split; [exact Hr|]. rewrite Hx.
  assert (HN : (0 < N)%Z).
  { assert (k < List.length dataArray)%nat
      by (apply nth_error_Some; rewrite Hk; discriminate).
    unfold N, arrayLength. lia. }
  apply (IZR_lt 0) in HN. apply IZR_le in Hhigh.
  rewrite !mult_IZR, <- INR_IZR_INZ in Hhigh.
  assert (Hk0 : 0 <= INR k) by apply pos_INR.
  unfold Mic2D.barWidth.
  assert (Hfrac : 1 <= INR k / IZR N * 2.5).
  { apply Rmult_le_reg_r with (IZR N); [exact HN|].
    replace (INR k / IZR N * 2.5 * IZR N) with (INR k * 2.5)
      by (field; lra).
    lra. }
  replace (0 + INR k * (cw / IZR N * 2.5 + 1))
    with (cw * (INR k / IZR N * 2.5) + INR k) by (field; lra).
  nra.
Qed.

Lemma high_bins_off_canvas_witness :
  exists r,
    nth_error (Mic2D.paint 800 400 (repeat Byte.x80 128)) 52 = Some r /\
    800 <= Mic2D.rectX r.
Proof.
  apply (high_bins_off_canvas 800 400 (repeat Byte.x80 128) 52 Byte.x80);
    [lra | reflexivity | vm_compute; discriminate].
Defined.

(** ** Doubles and reals agree on the floor *)

(** X26. On IEEE doubles the bars at the floor are the same as in exact
    arithmetic: the height equals the double 0.3 exactly for the bytes
    0 and 1 on the boosted bars and 0 to 4 on the others, and is
    strictly larger for every other byte. *)
Theorem binary64_floor_bytes (b : Byte.byte) (i : Z) :
  PrimFloat.eqb (Binary64.height i (Binary64.value b)) 0.3%float
  = (Z.of_N (Byte.to_N b) <=? (if (i <? 16)%Z then 1 else 4))%Z /\
  PrimFloat.ltb 0.3%float (Binary64.height i (Binary64.value b))
  = negb (Z.of_N (Byte.to_N b) <=? (if (i <? 16)%Z then 1 else 4))%Z.
Proof.
  unfold Binary64.height, Binary64.bassBoost.
  destruct (i <? 16)%Z; destruct b; vm_compute; split; reflexivity.
Qed.

(** ** The row of bars on doubles *)



(** On doubles, too, no byte gives the magnitude 0.5 or lifts bar 20 to
    height 9; the byte 128 lifts it to between 9 and 9.04. *)
Lemma binary64_bar20 (b : Byte.byte) :
  PrimFloat.eqb (Binary64.value b) 0.5 = false /\
  PrimFloat.eqb (Binary64.height 20 (Binary64.value b)) 9 = false /\
  PrimFloat.ltb 9 (Binary64.height 20 (Binary64.value Byte.x80)) = true /\
  PrimFloat.ltb (Binary64.height 20 (Binary64.value Byte.x80)) 9.04 = true.
Proof. destruct b; vm_compute; repeat split; reflexivity. Qed.
